(** * Simple HMAC Auth: the server-side verifier of [src/src/Server.js]

    A shallow embedding of the class [SimpleHMACAuth] (constructor,
    [authenticate], [_getRawBody], [_getApiKey], [_getSecretForKey]) and the
    properties of its verification state machine.

    JavaScript objects used as dictionaries (the settings object, the request
    headers, a parsed query, the properties hung on a request) are finite maps
    from property names to values; promises are modelled by their settlement,
    the secret delegate by the sequence of things it does to the callback and
    to the promise it returns. *)

From Stdlib Require Import ZArith String Ascii List Bool Lia.
From stdpp Require Import base option list gmap strings.

Local Open Scope string_scope.
Local Open Scope Z_scope.

(** ** JavaScript values *)

(** Numbers.  Time values and millisecond settings are integral; the only
    other number the verifier meets is [NaN], the time value of an invalid
    [Date]. *)
Inductive number :=
| NaN
| Fin (z : Z).

(** [a - b] on numbers. *)
Definition num_sub (a b : number) : number :=
  match a, b with
  | Fin x, Fin y => Fin (x - y)
  | _, _ => NaN
  end.

(** [a > b] on numbers: false as soon as one side is [NaN]. *)
Definition num_gt (a b : number) : bool :=
  match a, b with
  | Fin x, Fin y => y <? x
  | _, _ => false
  end.

(** The values the verifier handles.  A function value is a reference [f]
    into the table of functions of the integrating application. *)
#[warnings="-register-all"]
Inductive value :=
| VUndefined
| VNull
| VBool (b : bool)
| VNum (n : number)
| VStr (s : string)
| VObj (props : list (string * value))
| VFun (f : nat).

(** [typeof v] *)
Definition typeof (v : value) : string :=
  match v with
  | VUndefined => "undefined"
  | VNull => "object"
  | VBool _ => "boolean"
  | VNum _ => "number"
  | VStr _ => "string"
  | VObj _ => "object"
  | VFun _ => "function"
  end.

(** [v === undefined] *)
Definition is_undefined (v : value) : bool :=
  match v with VUndefined => true | _ => false end.

(** [v === true] *)
Definition is_true (v : value) : bool :=
  match v with VBool true => true | _ => false end.

(** Truthiness, as [if (v)] and [v || w] test it. *)
Definition truthy (v : value) : bool :=
  match v with
  | VUndefined | VNull => false
  | VBool b => b
  | VNum NaN => false
  | VNum (Fin z) => negb (z =? 0)
  | VStr s => negb (String.eqb s "")
  | VObj _ | VFun _ => true
  end.

(** Reading property [k] of an object literal [{k1: v1, ...}]. *)
Fixpoint field (k : string) (props : list (string * value)) : option value :=
  match props with
  | [] => None
  | (k', v) :: rest => if String.eqb k k' then Some v else field k rest
  end.

(** [v.k] for a value that may or may not be an object. *)
Definition get (k : string) (v : value) : option value :=
  match v with
  | VObj props => field k props
  | _ => None
  end.

(** The machine-readable [code] of a rejection value, when it carries one. *)
Definition code_of (v : value) : option string :=
  match get "code" v with
  | Some (VStr c) => Some c
  | _ => None
  end.

(** [o.hasOwnProperty(k)] on a dictionary. *)
Definition hasOwnProperty {A} (o : gmap string A) (k : string) : bool :=
  bool_decide (is_Some (o !! k)).

(** [o.k] on a dictionary of values: [undefined] when the property is absent. *)
Definition prop (o : gmap string value) (k : string) : value :=
  default VUndefined (o !! k).

(** The double quote character, which the messages of the verifier contain. *)
Definition dq : string := String "034"%char "".

(** [s.split(' ')]: the pieces between single spaces, empty pieces included. *)
Fixpoint split_space (s : string) : list string :=
  match s with
  | EmptyString => [""]
  | String c rest =>
      if Ascii.eqb c " "%char then "" :: split_space rest
      else match split_space rest with
           | [] => [String c ""]
           | w :: ws => String c w :: ws
           end
  end.

(** ** What the verifier imports

    [./sign] and [./canonicalize] are modules of the repository whose text is
    not part of the sources at hand; [url], [querystring], [Date] and string
    conversion belong to the platform.  The verifier is stated over all of
    them. *)

(** The two fields of [url.parse(u)] the verifier reads. *)
Record Url := { pathname : value; search_query : value }.

Class Platform := {
  (** [algorithms] of [./sign]: the names of the supported HMAC algorithms. *)
  algorithms : list string;
  (** [sign(canonical, secret, algorithm)] of [./sign]: a hex digest. *)
  sign : string -> value -> string -> string;
  (** [canonicalize(method, path, query, headers, data)] of [./canonicalize]. *)
  canonicalize : string -> value -> value -> gmap string string -> value -> string;
  (** [url.parse(u)]: [None] when it throws, as it does for a request target
      whose host it cannot read, [http://[::1] for one. *)
  url_parse : string -> option Url;
  (** [querystring.parse(q)] *)
  querystring_parse : value -> gmap string value;
  (** The time value of [new Date(s)]: [NaN] when [s] is no date. *)
  Date_parse : string -> number;
  (** [new Date(t).toUTCString()] *)
  toUTCString : Z -> string;
  (** The text a template literal interpolates for a value. *)
  ToString : value -> string;
  (** The text interpolated for [v / 1000]. *)
  seconds : value -> string;
  (** The number a string converts to in a comparison. *)
  StringToNumber : string -> number
}.

(** The number a value converts to when compared with a number. *)
Definition ToNumber `{Platform} (v : value) : number :=
  match v with
  | VUndefined => NaN
  | VNull => Fin 0
  | VBool b => Fin (if b then 1 else 0)
  | VNum n => n
  | VStr s => StringToNumber s
  | VObj _ | VFun _ => NaN
  end.

(** ** The instance and its constructor *)

Record Server := {
  secretForKey : value;
  settings : gmap string value
}.

(** [constructor(settings)]: [None] is a call with no settings object. *)
Definition constructor (settings : option (gmap string value)) : Server :=
  let settings := match settings with None => ∅ | Some s => s end in
  let settings :=
    if negb (hasOwnProperty settings "verbose")
    then <["verbose" := VBool false]> settings else settings in
  let settings :=
    if negb (hasOwnProperty settings "secretForKeyTimeout")
       || negb (String.eqb (typeof (prop settings "secretForKeyTimeout")) "number")
    then <["secretForKeyTimeout" := VNum (Fin (10 * 1000))]> settings else settings in
  let settings :=
    if negb (hasOwnProperty settings "permittedTimestampSkew")
       || negb (String.eqb (typeof (prop settings "permittedTimestampSkew")) "number")
    then <["permittedTimestampSkew" := VNum (Fin (60 * 1000))]> settings else settings in
  let settings :=
    if negb (hasOwnProperty settings "bodySizeLimit")
       || negb (String.eqb (typeof (prop settings "bodySizeLimit")) "string")
    then <["bodySizeLimit" := VStr "5mb"]> settings else settings in
  {| secretForKey :=
       if String.eqb (typeof (prop settings "secretForKey")) "function"
       then prop settings "secretForKey" else VUndefined;
     settings := settings |}.

(** [auth.secretForKey = f], as the usage examples install the delegate. *)
Definition set_secretForKey (f : value) (this : Server) : Server :=
  {| secretForKey := f; settings := settings this |}.

(** ** The secret delegate and [_getSecretForKey] *)

(** How a promise ends. *)
Inductive Settlement :=
| Resolve (v : value)
| Reject (e : value).

(** What can happen, one after the other, once [this.secretForKey(apiKey,
    callback)] has returned: the delegate calls the callback, the promise it
    returned is fulfilled or rejected, or the time given to [setTimeout] has
    passed. *)
Inductive event :=
| CallbackCalled (error secret : value)
| PromiseFulfilled (secret : value)
| PromiseRejected (error : value)
| TimeoutElapsed.

(** How the call of the delegate itself ends: it returns (a promise, or
    anything else), or it throws. *)
Inductive completion :=
| Returns (possiblePromise_is_Promise : bool)
| Throws (exn : value).

(** One run of the delegate: the calls [callback(error, secret)] it makes
    before it returns, how it returns, and what happens afterwards. *)
Record Behaviour := {
  during : list (value * value);
  completed : completion;
  afterwards : list event
}.

Inductive timer_state :=
| NotSet
| Armed
| Cleared
| Fired.

(** The promise [_getSecretForKey] returns, with its timer.  [attempts] keeps
    every call of [resolve] and [reject], [fires] counts the runs of the timer
    callback, [listening] says that the [then]/[catch] handlers are attached
    to the delegate's promise and have not run yet. *)
Record Lookup := {
  settled : option Settlement;
  attempts : list Settlement;
  timer : timer_state;
  delay : value;
  fires : nat;
  listening : bool
}.

Definition pending : Lookup :=
  {| settled := None; attempts := []; timer := NotSet; delay := VUndefined;
     fires := 0; listening := false |}.

(** [resolve(v)] and [reject(e)] of a promise: only the first one counts. *)
Definition settle (s : Settlement) (p : Lookup) : Lookup :=
  {| settled := match settled p with None => Some s | Some s0 => Some s0 end;
     attempts := attempts p ++ [s];
     timer := timer p; delay := delay p; fires := fires p; listening := listening p |}.

(** [setTimeout(.., ms)] *)
Definition setTimeout (ms : value) (p : Lookup) : Lookup :=
  {| settled := settled p; attempts := attempts p;
     timer := Armed; delay := ms; fires := fires p; listening := listening p |}.

(** [clearTimeout(timer)]: a timer that has not run yet never will. *)
Definition clearTimeout (p : Lookup) : Lookup :=
  {| settled := settled p; attempts := attempts p;
     timer := match timer p with Armed => Cleared | t => t end;
     delay := delay p; fires := fires p; listening := listening p |}.

Definition set_listening (b : bool) (p : Lookup) : Lookup :=
  {| settled := settled p; attempts := attempts p;
     timer := timer p; delay := delay p; fires := fires p; listening := b |}.

(** ** Requests *)

(** An inbound HTTP request.  [method], [url] and [headers] (lower-cased
    names) come from the transport; [query] is there when a framework has
    parsed the query string ([request.hasOwnProperty('query')]); [props]
    holds every other own property: [rawBody], [body], and what the verifier
    writes.  [chunks] is not a property: it lists what the ['data'] events of
    the request deliver before ['end'], for [_getRawBody] to collect. *)
Record Request := {
  method : string;
  url : string;
  headers : gmap string string;
  query : option (gmap string value);
  chunks : list string;
  props : gmap string value
}.

(** [request.k = v] *)
Definition set_prop (k : string) (v : value) (r : Request) : Request :=
  {| method := method r; url := url r; headers := headers r; query := query r;
     chunks := chunks r; props := <[k := v]> (props r) |}.

(** [request.headers.k], read after [hasOwnProperty] has found it. *)
Definition header (r : Request) (k : string) : string :=
  default "" (headers r !! k).

(** [_getRawBody(request)]: the executor has no [reject], so the model gives
    the value the promise resolves with: [request.rawBody] when that is
    neither [undefined] nor [null], the chunks of the stream put together
    otherwise. *)
Definition _getRawBody (request : Request) : value :=
  let rawBody := prop (props request) "rawBody" in
  match rawBody with
  | VUndefined | VNull => VStr (String.concat "" (chunks request))
  | _ => rawBody
  end.

(** ** Runs of [authenticate] *)

(** What a run of [authenticate] acts on: the request it annotates, the
    assignments it has made to it so far (oldest first), and the API keys it
    has called the secret delegate with. *)
Record World := {
  request : Request;
  writes : list (string * value);
  invoked : list value
}.

(** A statement of the body either goes on to the next one, or ends the run:
    with [resolve(..)] or [reject(..); return]; or, [Finish None], waiting
    for a promise that stays pending; or, [Raise], with an exception.  The
    body is an [async] function with no [try] around the calls that can
    throw: the exception rejects the promise of that function, which nobody
    holds, and [resolve] and [reject] are never called. *)
Inductive Step (A : Type) :=
| Continue (a : A)
| Finish (o : option Settlement)
| Raise.
Arguments Continue {A} a.
Arguments Finish {A} o.
Arguments Raise {A}.

Definition Exec (A : Type) : Type := World -> World * Step A.

#[global] Instance Exec_ret : MRet Exec := fun A a w => (w, Continue a).

#[global] Instance Exec_bind : MBind Exec := fun A B k m w =>
  match m w with
  | (w', Continue a) => k a w'
  | (w', Finish o) => (w', Finish o)
  | (w', Raise) => (w', Raise)
  end.

Definition reads {A} (f : Request -> A) : Exec A :=
  fun w => (w, Continue (f (request w))).

(** A call on the request that returns, or throws ([None]). *)
Definition calls {A} (f : Request -> option A) : Exec A :=
  fun w => match f (request w) with
           | Some a => (w, Continue a)
           | None => (w, Raise)
           end.

Definition assign (k : string) (v : value) : Exec unit := fun w =>
  ({| request := set_prop k v (request w);
      writes := writes w ++ [(k, v)];
      invoked := invoked w |}, Continue tt).

(** [reject(e); return;] *)
Definition reject {A} (e : value) : Exec A :=
  fun w => (w, Finish (Some (Reject e))).

(** [resolve(v)] as the last statement. *)
Definition resolve {A} (v : value) : Exec A :=
  fun w => (w, Finish (Some (Resolve v))).

(** [if (c) { ... }] *)
Definition when (c : bool) (body : Exec unit) : Exec unit :=
  if c then body else mret tt.

(** ** The verifier *)

Section Verifier.
Context `{Platform}.

Definition missing_delegate_error : value :=
  VObj [("message", VStr "Missing secretForKey function");
        ("details", VStr "Please implement a 'secretForKey' delegate function")].

Definition timeout_error (this : Server) (apiKey : value) : value :=
  VObj [("message",
         VStr ("Internal failure while attempting to locate secret for API key "
               +:+ dq +:+ ToString apiKey +:+ dq
               +:+ ": secretForKey has timed out after "
               +:+ seconds (prop (settings this) "secretForKeyTimeout") +:+ " seconds"));
        ("code", VStr "INTERNAL_ERROR_SECRET_TIMEOUT")].

(** The callback of [setTimeout]: runs when the time has passed, unless the
    timer was cleared, and never twice. *)
Definition timer_callback (this : Server) (apiKey : value) (p : Lookup) : Lookup :=
  match timer p with
  | Armed =>
      settle (Reject (timeout_error this apiKey))
        {| settled := settled p; attempts := attempts p;
           timer := Fired; delay := delay p; fires := S (fires p);
           listening := listening p |}
  | _ => p
  end.

(** [callback(error, secret)] *)
Definition callback (error secret : value) (p : Lookup) : Lookup :=
  let p := clearTimeout p in
  if truthy error || is_undefined secret
  then settle (Reject error) p
  else settle (Resolve secret) p.

(** [possiblePromise.then(secret => ...)] *)
Definition then_handler (secret : value) (p : Lookup) : Lookup :=
  settle (Resolve secret) (clearTimeout p).

(** [.catch(error => ...)] *)
Definition catch_handler (error : value) (p : Lookup) : Lookup :=
  settle (Reject error) (clearTimeout p).

(** What one event does to the promise and its timer.  The handlers on the
    delegate's promise exist only if it returned one, and run once. *)
Definition step (this : Server) (apiKey : value) (p : Lookup) (e : event) : Lookup :=
  match e with
  | CallbackCalled error secret => callback error secret p
  | PromiseFulfilled secret =>
      if listening p then then_handler secret (set_listening false p) else p
  | PromiseRejected error =>
      if listening p then catch_handler error (set_listening false p) else p
  | TimeoutElapsed => timer_callback this apiKey p
  end.

(** The executor of [_getSecretForKey], up to the return of the delegate.  An
    exception of the delegate leaves the executor, and the promise under
    construction is rejected with it. *)
Definition call_delegate (this : Server) (b : Behaviour) : Lookup :=
  let p := setTimeout (prop (settings this) "secretForKeyTimeout") pending in
  let p := foldl (fun p '(error, secret) => callback error secret p) p (during b) in
  match completed b with
  | Throws exn => settle (Reject exn) p
  | Returns true => set_listening true p
  | Returns false => p
  end.

(** [_getSecretForKey(apiKey)], run until the delegate [apply f apiKey] has
    nothing left to do. *)
Definition _getSecretForKey (this : Server) (apply : nat -> value -> Behaviour)
    (apiKey : value) : Lookup :=
  match secretForKey this with
  | VFun f =>
      let b := apply f apiKey in
      foldl (step this apiKey) (call_delegate this b) (afterwards b)
  | _ => settle (Reject missing_delegate_error) pending
  end.

(** [_getApiKey(request)]: the key it returns, or [None] when [url.parse]
    throws on the way. *)
Definition _getApiKey (request : Request) : option value :=
  if hasOwnProperty (headers request) "x-api-key"
  then Some (VStr (header request "x-api-key"))
  else
    match match query request with
          | Some q => Some q
          | None =>
              match url_parse (url request) with
              | Some requestURL => Some (querystring_parse (search_query requestURL))
              | None => None
              end
          end with
    | Some query =>
        Some (if negb (is_undefined (prop query "apiKey"))
              then prop query "apiKey" else VUndefined)
    | None => None
    end.

(** [await this._getSecretForKey(apiKey)] inside [try]: the settlement of the
    promise, or no continuation at all while it is pending.  The delegate is
    called when there is one. *)
Definition await_getSecretForKey (this : Server) (apply : nat -> value -> Behaviour)
    (apiKey : value) : Exec Settlement := fun w =>
  let w' :=
    {| request := request w; writes := writes w;
       invoked := invoked w ++ match secretForKey this with
                               | VFun _ => [apiKey]
                               | _ => []
                               end |} in
  match settled (_getSecretForKey this apply apiKey) with
  | Some s => (w', Continue s)
  | None => (w', Finish None)
  end.

(** *** The rejection values of [authenticate], in the order of the source *)

Definition API_KEY_MISSING : value :=
  VObj [("message", VStr "Missing API Key");
        ("code", VStr "API_KEY_MISSING")].

Definition INTERNAL_ERROR_SECRET_DISCOVERY (apiKey : value) : value :=
  VObj [("message",
         VStr ("Internal failure while attempting to locate secret for API key "
               +:+ dq +:+ ToString apiKey +:+ dq));
        ("code", VStr "INTERNAL_ERROR_SECRET_DISCOVERY")].

Definition API_KEY_UNRECOGNIZED (apiKey : value) : value :=
  VObj [("message", VStr ("Unrecognized API key: " +:+ ToString apiKey));
        ("code", VStr "API_KEY_UNRECOGNIZED")].

Definition AUTHORIZATION_HEADER_MISSING : value :=
  VObj [("message",
         VStr "Missing authorization. Please sign all incoming requests with the 'authorization' header.");
        ("code", VStr "AUTHORIZATION_HEADER_MISSING")].

Definition DATE_HEADER_MISSING : value :=
  VObj [("message",
         VStr "Missing timestamp. Please timestamp all incoming requests by including 'date' header.");
        ("code", VStr "DATE_HEADER_MISSING")].

Definition DATE_HEADER_INVALID (date : string) (now : Z) : value :=
  VObj [("message",
         VStr ("Timestamp is too old. Recieved: " +:+ dq +:+ date +:+ dq
               +:+ " current time: " +:+ dq +:+ toUTCString now +:+ dq));
        ("code", VStr "DATE_HEADER_INVALID");
        ("time", VStr (toUTCString now))].

(** Fewer than three components. *)
Definition AUTHORIZATION_HEADER_INVALID (authorization : string) : value :=
  VObj [("message",
         VStr ("Authorization header is improperly formatted: "
               +:+ dq +:+ authorization +:+ dq));
        ("details",
         VStr ("It should look like: " +:+ dq
               +:+ "signature sha256 a42d7b09a929b997aa8e6973bdbd5ca94326cbffc3d06a557d9ed36c6b80d4ff"
               +:+ dq));
        ("code", VStr "AUTHORIZATION_HEADER_INVALID")].

(** A first component other than [signature]. *)
Definition AUTHORIZATION_HEADER_INVALID_label (authorization : string) : value :=
  VObj [("message",
         VStr ("Authorization header is improperly formatted: "
               +:+ dq +:+ authorization +:+ dq));
        ("details",
         VStr ("It should look like: " +:+ dq
               +:+ "signature hmac-sha256 a42d7b09a929b997aa8e6973bdbd5ca94326cbffc3d06a557d9ed36c6b80d4ff"
               +:+ dq));
        ("code", VStr "AUTHORIZATION_HEADER_INVALID")].

(** [algorithms.join('", "')] *)
Definition supported : string := String.concat (dq +:+ ", " +:+ dq) algorithms.

Definition HMAC_ALGORITHM_INVALID (algorithm : string) : value :=
  VObj [("message",
         VStr ("Authorization header send invalid algorithm: "
               +:+ dq +:+ algorithm +:+ dq
               +:+ ". The only supported hmac algorithms are: "
               +:+ dq +:+ supported +:+ dq));
        ("code", VStr "HMAC_ALGORITHM_INVALID")].

Definition SIGNATURE_INVALID : value :=
  VObj [("message", VStr "Signature is invalid.");
        ("code", VStr "SIGNATURE_INVALID")].

(** ** [authenticate] *)

(** The body of [authenticate(request, data)].  [now] is the clock read by
    [new Date()] when the run gets to the timestamp.  [this.log] only writes
    to the console and is left out; so is the [catch] around
    [_getRawBody], whose promise is never rejected. *)
Definition authenticate_body (this : Server) (apply : nat -> value -> Behaviour)
    (now : Z) (data : value) : Exec unit :=
  assign "authenticated" (VBool false);;
  data ← (if is_true data
          then data ← reads _getRawBody;
               assign "body" data;;
               mret data
          else mret data);
  apiKey ← calls _getApiKey;
  when (is_undefined apiKey)
    (reject API_KEY_MISSING);;
  assign "apiKey" apiKey;;
  outcome ← await_getSecretForKey this apply apiKey;
  secret ← match outcome with
           | Resolve secret => mret secret
           | Reject error =>
               when (is_undefined error)
                 (reject (INTERNAL_ERROR_SECRET_DISCOVERY apiKey));;
               reject error
           end;
  when (is_undefined secret)
    (reject (API_KEY_UNRECOGNIZED apiKey));;
  assign "secret" secret;;
  hdrs ← reads headers;
  when (negb (hasOwnProperty hdrs "authorization"))
    (reject AUTHORIZATION_HEADER_MISSING);;
  when (negb (hasOwnProperty hdrs "date"))
    (reject DATE_HEADER_MISSING);;
  date ← reads (fun r => header r "date");
  let requestTime := Date_parse date in
  when (num_gt (num_sub (Fin now) requestTime)
               (ToNumber (prop (settings this) "permittedTimestampSkew")))
    (reject (DATE_HEADER_INVALID date now));;
  authorization ← reads (fun r => header r "authorization");
  let authorizationComponents := split_space authorization in
  when (length authorizationComponents <? 3)%nat
    (reject (AUTHORIZATION_HEADER_INVALID authorization));;
  let label := nth 0 authorizationComponents "" in
  let algorithm := nth 1 authorizationComponents "" in
  let signature := nth 2 authorizationComponents "" in
  when (negb (String.eqb label "signature"))
    (reject (AUTHORIZATION_HEADER_INVALID_label authorization));;
  when (negb (bool_decide (algorithm ∈ algorithms)))
    (reject (HMAC_ALGORITHM_INVALID algorithm));;
  requestURL ← calls (fun r => url_parse (url r));
  verb ← reads method;
  let canonical :=
    canonicalize verb (pathname requestURL) (search_query requestURL) hdrs data in
  let calculatedSignature := sign canonical secret algorithm in
  assign "signature" (VStr calculatedSignature);;
  assign "signatureExpected" (VStr calculatedSignature);;
  when (negb (String.eqb signature calculatedSignature))
    (reject SIGNATURE_INVALID);;
  assign "authenticated" (VBool true);;
  resolve (VObj [("apiKey", apiKey); ("secret", secret); ("signature", VStr signature)]).

(** [authenticate(request, data)]: the world the run leaves behind, and how
    the promise it returns ends ([None]: it stays pending, as it does for
    good after an exception). *)
Definition authenticate (this : Server) (apply : nat -> value -> Behaviour)
    (now : Z) (request : Request) (data : value) : World * option Settlement :=
  match authenticate_body this apply now data
          {| request := request; writes := []; invoked := [] |} with
  | (w, Finish o) => (w, o)
  | (w, Continue _) => (w, None)
  | (w, Raise) => (w, None)
  end.

(** The run of [authenticate(request, data)] ends with an exception nothing
    catches. *)
Definition uncaught (this : Server) (apply : nat -> value -> Behaviour)
    (now : Z) (request : Request) (data : value) : bool :=
  match authenticate_body this apply now data
          {| request := request; writes := []; invoked := [] |} with
  | (_, Raise) => true
  | _ => false
  end.

(** The API key of a request: what [_getApiKey] returns for it, [undefined]
    standing also for the call that throws and returns nothing. *)
Definition apiKey_of (request : Request) : value :=
  default VUndefined (_getApiKey request).

End Verifier.

(** ** Vocabulary of the properties *)

(** The promise of [authenticate] is rejected with a value whose [code] is [c]. *)
Definition rejects_with (o : option Settlement) (c : string) : Prop :=
  exists e, o = Some (Reject e) /\ code_of e = Some c.

(** The codes of the rejections [authenticate] builds itself. *)
Definition verifier_codes : list string :=
  ["API_KEY_MISSING"; "INTERNAL_ERROR_SECRET_DISCOVERY"; "INTERNAL_ERROR_SECRET_TIMEOUT";
   "API_KEY_UNRECOGNIZED"; "AUTHORIZATION_HEADER_MISSING"; "DATE_HEADER_MISSING";
   "DATE_HEADER_INVALID"; "AUTHORIZATION_HEADER_INVALID"; "HMAC_ALGORITHM_INVALID";
   "SIGNATURE_INVALID"].

(** The properties of a request [authenticate] assigns to. *)
Definition annotations : list string :=
  ["authenticated"; "body"; "apiKey"; "secret"; "signature"; "signatureExpected"].

(** The body that is canonicalized: drained from the request when [data] is
    the sentinel [true], [data] itself otherwise. *)
Definition body_of (request : Request) (data : value) : value :=
  if is_true data then _getRawBody request else data.

(** Property [k] of the object given to the constructor, if any. *)
Definition supplied (settings : option (gmap string value)) (k : string) : option value :=
  settings ≫= (λ s, s !! k).

(** One statement of the constructor:
    [if (!settings.hasOwnProperty(k) || typeof settings.k !== ty) settings.k = d]. *)
Definition defaulted (k ty : string) (d : value) (s : gmap string value) : gmap string value :=
  if negb (hasOwnProperty s k) || negb (String.eqb (typeof (prop s k)) ty)
  then <[k := d]> s else s.

(** [if (!settings.hasOwnProperty('verbose')) settings.verbose = false] *)
Definition verbose_defaulted (s : gmap string value) : gmap string value :=
  if negb (hasOwnProperty s "verbose") then <["verbose" := VBool false]> s else s.

(** *** What a delegate does first *)

(** The delegate returns a promise, which is fulfilled with [v] before
    anything else happens. *)
Inductive fulfils : Behaviour -> value -> Prop :=
| fulfils_promise v rest :
    fulfils {| during := []; completed := Returns true;
               afterwards := PromiseFulfilled v :: rest |} v.

(** The delegate errors with [e] before anything else happens: it throws
    [e], the promise it returned is rejected with [e], or it calls back with
    the error [e] ([callback(e, ..)] with [e] truthy). *)
Inductive errors : Behaviour -> value -> Prop :=
| errors_throw e rest :
    errors {| during := []; completed := Throws e; afterwards := rest |} e
| errors_reject e rest :
    errors {| during := []; completed := Returns true;
              afterwards := PromiseRejected e :: rest |} e
| errors_callback_during e s more c rest :
    truthy e = true ->
    errors {| during := (e, s) :: more; completed := c; afterwards := rest |} e
| errors_callback_afterwards e s p rest :
    truthy e = true ->
    errors {| during := []; completed := Returns p;
              afterwards := CallbackCalled e s :: rest |} e.

(** The delegate has done nothing by the time the timeout has passed. *)
Inductive stalls : Behaviour -> Prop :=
| stalls_intro p rest :
    stalls {| during := []; completed := Returns p; afterwards := TimeoutElapsed :: rest |}.

(** The error a call [callback(e, s)] hands over, if any: a truthy [e]. *)
Definition callback_errors (call : value * value) : list value :=
  if truthy call.1 then [call.1] else [].

(** The value an event hands over as an error, if any. *)
Definition event_errors (ev : event) : list value :=
  match ev with
  | CallbackCalled e s => callback_errors (e, s)
  | PromiseRejected e => [e]
  | _ => []
  end.

(** Every value a run of the delegate hands over as an error: to the
    callback, by throwing, or through its promise. *)
Definition delegate_errors (b : Behaviour) : list value :=
  flat_map callback_errors (during b)
  ++ match completed b with Throws e => [e] | Returns _ => [] end
  ++ flat_map event_errors (afterwards b).

(** A call [callback(e, s)] says something: an error, or a secret. *)
Definition callback_says (call : value * value) : bool :=
  truthy call.1 || negb (is_undefined call.2).

Definition event_says (ev : event) : bool :=
  match ev with
  | CallbackCalled e s => callback_says (e, s)
  | _ => true
  end.

(** The delegate never calls back with neither an error nor a secret. *)
Definition outspoken (b : Behaviour) : bool :=
  forallb callback_says (during b) && forallb event_says (afterwards b).

(** *** Invariant of the promise of [_getSecretForKey] *)

(** The promise holds the first settlement that was attempted, the timer
    callback has run once if the timer is [Fired] and never otherwise, and a
    timer that was cleared or has fired leaves a settled promise behind. *)
Definition lookup_ok (p : Lookup) : Prop :=
  settled p = head (attempts p)
  /\ fires p = match timer p with Fired => 1%nat | _ => 0%nat end
  /\ (timer p = Cleared \/ timer p = Fired -> is_Some (settled p)).

(** Every rejection attempted so far is the timeout or an error of the
    delegate. *)
Definition rejections_from (timeout : value) (errs : list value) (p : Lookup) : Prop :=
  forall e, Reject e ∈ attempts p -> e = timeout \/ e ∈ errs.

(** The timer was set and will not run (again). *)
Definition disarmed (p : Lookup) : Prop := timer p = Cleared \/ timer p = Fired.

(** *** How far a run gets *)

Section Reaching.
Context `{Platform}.

(** The run reaches the timestamp check: a key was found, the delegate
    produced [secret], and both mandatory headers are there. *)
Record reaches_timestamp (this : Server) (apply : nat -> value -> Behaviour)
    (req : Request) (secret : value) (authorization date : string) : Prop := {
  key_found : is_undefined (apiKey_of req) = false;
  secret_found :
    settled (_getSecretForKey this apply (apiKey_of req)) = Some (Resolve secret);
  secret_defined : is_undefined secret = false;
  authorization_present : headers req !! "authorization" = Some authorization;
  date_present : headers req !! "date" = Some date
}.

(** The run reaches the parsing of the authorization header: it reached the
    timestamp check and passed it. *)
Definition reaches_authorization (this : Server) (apply : nat -> value -> Behaviour)
    (now : Z) (req : Request) (secret : value) (authorization date : string) : Prop :=
  reaches_timestamp this apply req secret authorization date
  /\ num_gt (num_sub (Fin now) (Date_parse date))
            (ToNumber (prop (settings this) "permittedTimestampSkew")) = false.

(** The signature [authenticate] computes for a request, when [url.parse]
    returns. *)
Definition calculated (req : Request) (data secret : value) (algorithm : string)
    : option string :=
  match url_parse (url req) with
  | Some requestURL =>
      Some (sign (canonicalize (method req) (pathname requestURL) (search_query requestURL)
                    (headers req) (body_of req data))
              secret algorithm)
  | None => None
  end.

End Reaching.

(** *** The words of the specification *)

(** The option names of the specification's configuration surface. *)
Definition spec_secretForKeyTimeout : string := "secretForKeyTimeoutMs".
Definition spec_permittedTimestampSkew : string := "permittedTimestampSkewMs".

(** The specification's freshness test: [|now - requestTime|] exceeds the
    skew window. *)
Definition spec_skew_exceeded (now requestTime skew : Z) : Prop :=
  skew < Z.abs (now - requestTime).

Definition is_whitespace (c : ascii) : bool :=
  Ascii.eqb c " "%char || Ascii.eqb c "009"%char
  || Ascii.eqb c "010"%char || Ascii.eqb c "013"%char.

(** The specification's whitespace-separated tokens of a header. *)
Fixpoint spec_tokens_from (current s : string) : list string :=
  match s with
  | EmptyString => if String.eqb current "" then [] else [current]
  | String c rest =>
      if is_whitespace c
      then if String.eqb current "" then spec_tokens_from "" rest
           else current :: spec_tokens_from "" rest
      else spec_tokens_from (current +:+ String c "") rest
  end.

Definition spec_tokens (s : string) : list string := spec_tokens_from "" s.

(** The specification's well-formed authorization header: exactly the three
    tokens [signature <algorithm> <signature>]. *)
Definition spec_well_formed (authorization : string) : Prop :=
  exists algorithm signature, spec_tokens authorization = ["signature"; algorithm; signature].

(** ** Examples

    A platform for the examples: the library functions are tabulated on the
    inputs the examples use, and [sign] and [canonicalize] are stand-ins that
    keep different inputs apart. *)

Definition example_ToString (v : value) : string :=
  match v with
  | VStr s => s
  | VUndefined => "undefined"
  | VNull => "null"
  | VBool true => "true"
  | VBool false => "false"
  | VNum _ => "NaN"
  | VObj _ => "[object Object]"
  | VFun _ => "function"
  end.

Definition example_Date_parse (s : string) : number :=
  if String.eqb s "Thu, 01 Jan 1970 00:00:00 GMT" then Fin 0
  else if String.eqb s "Thu, 01 Jan 1970 00:10:00 GMT" then Fin 600000
  else if String.eqb s "Thu, 01 Jan 1970 00:20:00 GMT" then Fin 1200000
  else NaN.

Definition example_toUTCString (t : Z) : string :=
  if t =? 600000 then "Thu, 01 Jan 1970 00:10:00 GMT"
  else "Thu, 01 Jan 1970 00:00:00 GMT".

Definition example_url_parse (u : string) : option Url :=
  if String.eqb u "http://[::1" then None
  else if String.eqb u "/items/?apiKey=API_KEY"
  then Some {| pathname := VStr "/items/"; search_query := VStr "apiKey=API_KEY" |}
  else Some {| pathname := VStr u; search_query := VNull |}.

Definition example_querystring_parse (q : value) : gmap string value :=
  match q with
  | VStr "apiKey=API_KEY" => {[ "apiKey" := VStr "API_KEY" ]}
  | _ => ∅
  end.

Definition example_platform : Platform := {|
  algorithms := ["sha1"; "sha256"; "sha512"];
  sign := fun canonical secret algorithm =>
    algorithm +:+ "/" +:+ example_ToString secret +:+ "/" +:+ canonical;
  canonicalize := fun verb path q hdrs data =>
    verb +:+ "|" +:+ example_ToString path +:+ "|" +:+ example_ToString data;
  url_parse := example_url_parse;
  querystring_parse := example_querystring_parse;
  Date_parse := example_Date_parse;
  toUTCString := example_toUTCString;
  ToString := example_ToString;
  seconds := fun v => match v with VNum (Fin 10000) => "10" | _ => "NaN" end;
  StringToNumber := fun _ => NaN
|}.

(** The delegate of [usage/server/http_roundtrip/index.js]: [callback(null,
    secret)] for a known key, [callback()] otherwise. *)
Definition secretsForAPIKeys : gmap string string :=
  {[ "API_KEY" := "SECRET"; "API_KEY_TWO" := "SECRET_TWO"; "API_KEY_THREE" := "SECRET_THREE" ]}.

Definition usage_secretForKey (apiKey : value) : Behaviour :=
  match apiKey with
  | VStr k =>
      match secretsForAPIKeys !! k with
      | Some secret => {| during := [(VNull, VStr secret)]; completed := Returns false;
                          afterwards := [TimeoutElapsed] |}
      | None => {| during := [(VUndefined, VUndefined)]; completed := Returns false;
                   afterwards := [TimeoutElapsed] |}
      end
  | _ => {| during := [(VUndefined, VUndefined)]; completed := Returns false;
            afterwards := [TimeoutElapsed] |}
  end.

(** The delegate of the README kept in [index.js]: an unknown key is
    answered with [callback({message: 'API key not found'})]. *)
Definition readme_secretForKey (apiKey : value) : Behaviour :=
  match apiKey with
  | VStr "exampleAPIKeyOne" =>
      {| during := [(VNull, VStr "secreTOne")]; completed := Returns false;
         afterwards := [TimeoutElapsed] |}
  | VStr "exampleAPIKeyTwo" =>
      {| during := [(VNull, VStr "secretTwo")]; completed := Returns false;
         afterwards := [TimeoutElapsed] |}
  | _ => {| during := [(VObj [("message", VStr "API key not found")], VUndefined)];
            completed := Returns false; afterwards := [TimeoutElapsed] |}
  end.

(** Promise-style delegates: one whose promise is rejected with a bare
    string, one that knows no key, one that never answers, and one that
    answers three times over: by callback, by promise, and too late. *)
Definition failing_secretForKey (apiKey : value) : Behaviour :=
  {| during := []; completed := Returns true;
     afterwards := [PromiseRejected (VStr "database unavailable"); TimeoutElapsed] |}.

Definition empty_secretForKey (apiKey : value) : Behaviour :=
  {| during := []; completed := Returns true;
     afterwards := [PromiseFulfilled VUndefined; TimeoutElapsed] |}.

Definition stalled_secretForKey (apiKey : value) : Behaviour :=
  {| during := []; completed := Returns true; afterwards := [TimeoutElapsed] |}.

Definition racing_secretForKey (apiKey : value) : Behaviour :=
  {| during := []; completed := Returns true;
     afterwards := [CallbackCalled VNull (VStr "SECRET"); PromiseFulfilled (VStr "OTHER");
                    TimeoutElapsed; CallbackCalled (VStr "late") VUndefined] |}.

(** The functions of the example application. *)
Definition example_apply (f : nat) : value -> Behaviour :=
  match f with
  | 0%nat => usage_secretForKey
  | 1%nat => readme_secretForKey
  | 2%nat => failing_secretForKey
  | 3%nat => empty_secretForKey
  | 4%nat => stalled_secretForKey
  | _ => racing_secretForKey
  end.

(** [new SimpleHMACAuth.Server({verbose: true})] with delegate [f] installed. *)
Definition example_server (f : nat) : Server :=
  set_secretForKey (VFun f) (constructor (Some {[ "verbose" := VBool true ]})).

(** [GET /items/] with the three headers of the protocol. *)
Definition example_request (apiKey date authorization : string) : Request :=
  {| method := "GET"; url := "/items/";
     headers := {[ "x-api-key" := apiKey; "date" := date; "authorization" := authorization ]};
     query := None; chunks := []; props := ∅ |}.

(** The instant the examples run at: ten minutes after the epoch. *)
Definition example_now : Z := 600000.

(** The signature of [GET /items/] with no body under the secret of
    [API_KEY], in the stand-in of the examples. *)
Definition example_signature : string := "sha256/SECRET/GET|/items/|".

(** A correctly signed request, by the date it carries. *)
Definition signed_request (date : string) : Request :=
  example_request "API_KEY" date ("signature sha256 " +:+ example_signature).

(** The same request with a fourth component after the signature. *)
Definition padded_request : Request :=
  example_request "API_KEY" "Thu, 01 Jan 1970 00:10:00 GMT"
    ("signature sha256 " +:+ example_signature +:+ " extra").

(** A request for a key nobody knows. *)
Definition unknown_request : Request :=
  example_request "UNKNOWN" "Thu, 01 Jan 1970 00:10:00 GMT"
    ("signature sha256 " +:+ example_signature).

(** A signed request without an [x-api-key] header, for a target that
    [url.parse] throws on. *)
Definition unparsable_request : Request :=
  {| method := "GET"; url := "http://[::1";
     headers := {[ "date" := "Thu, 01 Jan 1970 00:10:00 GMT";
                   "authorization" := "signature sha256 " +:+ example_signature ]};
     query := None; chunks := []; props := ∅ |}.

(** A request whose body has not been read yet, with a wrong signature. *)
Definition streamed_request : Request :=
  {| method := "POST"; url := "/items/";
     headers := {[ "x-api-key" := "API_KEY"; "date" := "Thu, 01 Jan 1970 00:10:00 GMT";
                   "authorization" := "signature sha256 bad" ]};
     query := None; chunks := ["ab"; "cd"]; props := ∅ |}.

(** ** The rest of the class and its use

    What follows serves the properties of the code beside the verification
    state machine: [log], the other options of the constructor, the way a
    delegate answers, and the two request handlers of
    [usage/server/http_roundtrip/index.js]. *)

(** [log(...messages)]: what goes to [console.log], if anything. *)
Definition log (this : Server) (messages : list value) : option (list value) :=
  if negb (truthy (prop (settings this) "verbose")) then None
  else Some (VStr "SimpleHMACAuth" :: messages).

(** The delegate the constructor installs, read off the settings it keeps. *)
Definition installed (st : gmap string value) : value :=
  if String.eqb (typeof (prop st "secretForKey")) "function"
  then prop st "secretForKey" else VUndefined.

(** The four options the constructor gives a default. *)
Definition defaulted_options : list string :=
  ["verbose"; "secretForKeyTimeout"; "permittedTimestampSkew"; "bodySizeLimit"].

(** What [callback(error, secret)] settles the promise with. *)
Definition callback_settlement (error secret : value) : Settlement :=
  if truthy error || is_undefined secret then Reject error else Resolve secret.

(** The delegate answers, through the callback or through the promise it
    returned, before anything else happens; the handler settles with [r]. *)
Inductive responds : Behaviour -> Settlement -> Prop :=
| responds_fulfilled v rest :
    responds {| during := []; completed := Returns true;
                afterwards := PromiseFulfilled v :: rest |} (Resolve v)
| responds_rejected e rest :
    responds {| during := []; completed := Returns true;
                afterwards := PromiseRejected e :: rest |} (Reject e)
| responds_during e s more c rest :
    responds {| during := (e, s) :: more; completed := c; afterwards := rest |}
             (callback_settlement e s)
| responds_afterwards e s p rest :
    responds {| during := []; completed := Returns p;
                afterwards := CallbackCalled e s :: rest |}
             (callback_settlement e s).

Definition is_callback (ev : event) : bool :=
  match ev with CallbackCalled _ _ => true | _ => false end.

(** *** The settlements a run of the delegate asks for

    The specification has the first settlement, of the delegate or of the
    timeout, decide the lookup.  These are the settlements in the order they
    are asked for, with no timer and no handler in sight: what each call of
    the callback asks for, the exception of the delegate, and afterwards the
    callback again, the promise of the delegate if it returned one, and the
    timeout. *)

Section Settlements.
Context `{Platform}.

Definition returned_promise (b : Behaviour) : bool :=
  match completed b with Returns true => true | _ => false end.

Definition event_settlement (this : Server) (apiKey : value) (is_promise : bool)
    (ev : event) : list Settlement :=
  match ev with
  | CallbackCalled e s => [callback_settlement e s]
  | PromiseFulfilled v => if is_promise then [Resolve v] else []
  | PromiseRejected e => if is_promise then [Reject e] else []
  | TimeoutElapsed => [Reject (timeout_error this apiKey)]
  end.

Definition settlements (this : Server) (apiKey : value) (b : Behaviour) : list Settlement :=
  map (fun call => callback_settlement call.1 call.2) (during b)
  ++ match completed b with Throws exn => [Reject exn] | Returns _ => [] end
  ++ flat_map (event_settlement this apiKey (returned_promise b)) (afterwards b).

End Settlements.

(** The promise [p] is where the settlements [asked] for so far put it: it
    holds the first of them; a timer that is no longer armed, and a handler
    on the delegate's promise ([is_promise]) that is no longer waiting, have
    left it settled. *)
Definition tracks (is_promise : bool) (p : Lookup) (asked : list Settlement) : Prop :=
  settled p = head asked
  /\ (timer p <> Armed -> is_Some (settled p))
  /\ (listening p = true -> is_promise = true)
  /\ (listening p = false -> is_promise = true -> is_Some (settled p)).

(** The lookup is waiting: nothing settled, the timer running, no handler on
    a promise of the delegate. *)
Definition waiting (p : Lookup) : Prop :=
  settled p = None /\ timer p = Armed /\ listening p = false.

(** No space in a string. *)
Definition spaceless (s : string) : bool :=
  forallb (fun c => negb (Ascii.eqb c " "%char)) (list_ascii_of_string s).

(** [`signature ${algorithm} ${signature}`], the authorization header of the
    protocol. *)
Definition authorization_header (algorithm signature : string) : string :=
  "signature " +:+ algorithm +:+ " " +:+ signature.

(** *** The handlers of the usage example *)

(** What a handler sends: [response.end('200')] or
    [response.end(JSON.stringify(v))]. *)
Inductive Payload :=
| Text (s : string)
| Json (v : value).

(** [response.writeHead(statusCode); response.end(payload)] *)
Record Response := {
  statusCode : Z;
  payload : Payload
}.

(** The [try]/[catch] around [await auth.authenticate(..)] of both handlers:
    200 when the promise is resolved, 401 with the error when it is rejected,
    and nothing while it is pending. *)
Definition respond (o : option Settlement) : option Response :=
  match o with
  | Some (Resolve _) => Some {| statusCode := 200; payload := Text "200" |}
  | Some (Reject error) =>
      Some {| statusCode := 401; payload := Json (VObj [("error", error)]) |}
  | None => None
  end.

Section Usage.
Context `{Platform}.

(** [dataListenerRequestHandler]: collects the chunks of the request, then
    authenticates it with them.  [auth] is [example_server 0], whose delegate
    is the one of the usage example. *)
Definition dataListenerRequestHandler (now : Z) (request : Request) : option Response :=
  let data := String.concat "" (chunks request) in
  respond (snd (authenticate (example_server 0) example_apply now request (VStr data))).

(** [immediateRequestHandler]: leaves the reading to [authenticate]. *)
Definition immediateRequestHandler (now : Z) (request : Request) : option Response :=
  respond (snd (authenticate (example_server 0) example_apply now request (VBool true))).

End Usage.

(** Requests for the examples of this part: a request without a date, and a
    signed request that already carries annotations. *)
Definition undated_request : Request :=
  {| method := "GET"; url := "/items/";
     headers := {[ "x-api-key" := "API_KEY";
                   "authorization" := "signature sha256 " +:+ example_signature ]};
     query := None; chunks := []; props := ∅ |}.

Definition annotated_request : Request :=
  {| method := "GET"; url := "/items/";
     headers := {[ "x-api-key" := "API_KEY"; "date" := "Thu, 01 Jan 1970 00:10:00 GMT";
                   "authorization" := "signature sha256 bad" ]};
     query := None; chunks := ["ab"];
     props := {[ "authenticated" := VBool true; "secret" := VStr "FORGED" ]} |}.

(** A delegate that throws before it has called back. *)
Definition throwing_secretForKey (apiKey : value) : Behaviour :=
  {| during := []; completed := Throws (VStr "boom");
     afterwards := [TimeoutElapsed] |}.

(** A delegate that returns a thenable which is no [Promise], and never
    calls back. *)
Definition thenable_secretForKey (apiKey : value) : Behaviour :=
  {| during := []; completed := Returns false;
     afterwards := [PromiseFulfilled (VStr "SECRET"); TimeoutElapsed] |}.

(** The functions of the examples of this part. *)
Definition further_apply (f : nat) : value -> Behaviour :=
  match f with
  | 0%nat => throwing_secretForKey
  | _ => thenable_secretForKey
  end.


(** * Properties *)

(** ** The primitives on examples *)

Example split_space_three :
  split_space "signature sha256 abc" = ["signature"; "sha256"; "abc"].
Proof. reflexivity. Qed.

Example split_space_empty : split_space "" = [""].
Proof. reflexivity. Qed.

Example split_space_double : split_space "a  b " = ["a"; ""; "b"; ""].
Proof. reflexivity. Qed.

Example split_space_tab :
  split_space ("signature" +:+ String "009"%char "sha256")
  = ["signature" +:+ String "009"%char "sha256"].
Proof. reflexivity. Qed.

Example spec_tokens_whitespace :
  spec_tokens ("signature" +:+ String "009"%char " sha256  abc ")
  = ["signature"; "sha256"; "abc"].
Proof. reflexivity. Qed.

Example truthy_values :
  map truthy [VUndefined; VNull; VBool false; VNum NaN; VNum (Fin 0); VStr "";
              VStr "0"; VNum (Fin (-1)); VObj []; VFun 0]
  = [false; false; false; false; false; false; true; true; true; true].
Proof. reflexivity. Qed.

Example stale_comparison :
  num_gt (num_sub (Fin 600000) (Fin 0)) (Fin 60000) = true
  /\ num_gt (num_sub (Fin 600000) (Fin 1200000)) (Fin 60000) = false
  /\ num_gt (num_sub (Fin 600000) NaN) (Fin 60000) = false.
Proof. repeat split; reflexivity. Qed.

(** The delegate of the usage example: a known key is resolved by the
    callback and the timer is cleared; for an unknown key [callback()] makes
    the lookup reject with [undefined]. *)
Example usage_delegate_known :
  settled (_getSecretForKey (H := example_platform) (example_server 0) example_apply
             (VStr "API_KEY_TWO")) = Some (Resolve (VStr "SECRET_TWO"))
  /\ timer (_getSecretForKey (H := example_platform) (example_server 0) example_apply
              (VStr "API_KEY_TWO")) = Cleared.
Proof. split; vm_compute; reflexivity. Qed.

Example usage_delegate_unknown :
  settled (_getSecretForKey (H := example_platform) (example_server 0) example_apply
             (VStr "UNKNOWN")) = Some (Reject VUndefined).
Proof. vm_compute. reflexivity. Qed.

(** The delegate that never answers: the timer runs, once, and rejects. *)
Example stalled_delegate_times_out :
  code_of <$> (match settled (_getSecretForKey (H := example_platform) (example_server 4)
                                example_apply (VStr "API_KEY")) with
               | Some (Reject e) => Some e
               | _ => None
               end) = Some (Some "INTERNAL_ERROR_SECRET_TIMEOUT")
  /\ fires (_getSecretForKey (H := example_platform) (example_server 4) example_apply
              (VStr "API_KEY")) = 1%nat.
Proof. split; vm_compute; reflexivity. Qed.

(** A correctly signed, fresh request of the usage example is authenticated,
    and the run leaves its annotations on the request. *)
Example signed_request_authenticated :
  snd (authenticate (H := example_platform) (example_server 0) example_apply example_now
         (signed_request "Thu, 01 Jan 1970 00:10:00 GMT") (VStr ""))
  = Some (Resolve (VObj [("apiKey", VStr "API_KEY"); ("secret", VStr "SECRET");
                         ("signature", VStr example_signature)]))
  /\ writes (fst (authenticate (H := example_platform) (example_server 0) example_apply
                    example_now (signed_request "Thu, 01 Jan 1970 00:10:00 GMT") (VStr "")))
     = [("authenticated", VBool false); ("apiKey", VStr "API_KEY");
        ("secret", VStr "SECRET"); ("signature", VStr example_signature);
        ("signatureExpected", VStr example_signature); ("authenticated", VBool true)].
Proof. split; vm_compute; reflexivity. Qed.

(** ** Dictionaries *)

Lemma hasOwnProperty_true {A} (o : gmap string A) k :
  hasOwnProperty o k = true <-> is_Some (o !! k).
Proof. unfold hasOwnProperty. apply bool_decide_eq_true. Qed.

Lemma hasOwnProperty_Some {A} (o : gmap string A) k v :
  o !! k = Some v -> hasOwnProperty o k = true.
Proof. intros E. apply hasOwnProperty_true. eauto. Qed.

Lemma hasOwnProperty_None {A} (o : gmap string A) k :
  o !! k = None -> hasOwnProperty o k = false.
Proof.
  intros E. unfold hasOwnProperty. apply bool_decide_eq_false.
  rewrite E. intros [x Hx]. discriminate.
Qed.

(** ** The constructor *)

Lemma constructor_settings s :
  settings (constructor s)
  = defaulted "bodySizeLimit" "string" (VStr "5mb")
      (defaulted "permittedTimestampSkew" "number" (VNum (Fin 60000))
         (defaulted "secretForKeyTimeout" "number" (VNum (Fin 10000))
            (verbose_defaulted (match s with None => ∅ | Some s => s end)))).
Proof. reflexivity. Qed.

Lemma prop_defaulted_other k ty d s k' :
  k <> k' -> prop (defaulted k ty d s) k' = prop s k'.
Proof.
  intros Hne. unfold defaulted, prop.
  destruct (_ || _); [by rewrite lookup_insert_ne | reflexivity].
Qed.

Lemma prop_verbose_defaulted_other s k' :
  "verbose" <> k' -> prop (verbose_defaulted s) k' = prop s k'.
Proof.
  intros Hne. unfold verbose_defaulted, prop.
  destruct (negb _); [by rewrite lookup_insert_ne | reflexivity].
Qed.

Lemma prop_defaulted_number k d s :
  prop (defaulted k "number" d s) k
  = match s !! k with Some (VNum n) => VNum n | _ => d end.
Proof.
  unfold defaulted, prop.
  destruct (s !! k) as [v|] eqn:E.
  - rewrite (hasOwnProperty_Some _ _ _ E). simpl.
    destruct v; simpl; rewrite ?lookup_insert_eq, ?E; reflexivity.
  - rewrite (hasOwnProperty_None _ _ E). simpl. by rewrite lookup_insert_eq.
Qed.

Lemma supplied_lookup s k :
  supplied s k = (match s with None => ∅ | Some s => s end) !! k.
Proof. destruct s; simpl; [reflexivity | by rewrite lookup_empty]. Qed.

(** C9, as the code has it: whatever object the constructor is given, or none, the
    instance reads its secret-lookup timeout from [secretForKeyTimeout] and
    its timestamp skew from [permittedTimestampSkew]: the supplied value when
    that property is a number, 10000 ms and 60000 ms otherwise. *)
Theorem constructor_defaults (s : option (gmap string value)) :
  prop (settings (constructor s)) "secretForKeyTimeout"
    = match supplied s "secretForKeyTimeout" with
      | Some (VNum n) => VNum n
      | _ => VNum (Fin 10000)
      end
  /\ prop (settings (constructor s)) "permittedTimestampSkew"
     = match supplied s "permittedTimestampSkew" with
       | Some (VNum n) => VNum n
       | _ => VNum (Fin 60000)
       end.
Proof.
  rewrite constructor_settings, !supplied_lookup.
  set (s0 := match s with None => ∅ | Some s1 => s1 end). clearbody s0.
  split.
  - rewrite !prop_defaulted_other by done.
    rewrite prop_defaulted_number.
    unfold verbose_defaulted. destruct (negb _); [by rewrite lookup_insert_ne | done].
  - rewrite prop_defaulted_other by done.
    rewrite prop_defaulted_number.
    unfold defaulted at 1. unfold verbose_defaulted.
    destruct (_ || _); destruct (negb _); rewrite ?lookup_insert_ne by done; done.
Qed.

(** C9, as the specification words it, fails: an option supplied under the names of the
    specification's configuration surface is not read (the timeout stays
    10000 ms), and with those options absent the instance still takes 5000 ms
    and 1000 ms from [secretForKeyTimeout] and [permittedTimestampSkew]. *)
Lemma constructor_ignores_spec_names :
  prop (settings (constructor (Some {[ spec_secretForKeyTimeout := VNum (Fin 5000);
                                       spec_permittedTimestampSkew := VNum (Fin 1000) ]})))
       "secretForKeyTimeout" = VNum (Fin 10000)
  /\ prop (settings (constructor (Some {[ spec_secretForKeyTimeout := VNum (Fin 5000);
                                          spec_permittedTimestampSkew := VNum (Fin 1000) ]})))
          "permittedTimestampSkew" = VNum (Fin 60000)
  /\ supplied (Some {[ "secretForKeyTimeout" := VNum (Fin 5000);
                       "permittedTimestampSkew" := VNum (Fin 1000) ]})
              spec_secretForKeyTimeout = None
  /\ supplied (Some {[ "secretForKeyTimeout" := VNum (Fin 5000);
                       "permittedTimestampSkew" := VNum (Fin 1000) ]})
              spec_permittedTimestampSkew = None
  /\ prop (settings (constructor (Some {[ "secretForKeyTimeout" := VNum (Fin 5000);
                                          "permittedTimestampSkew" := VNum (Fin 1000) ]})))
          "secretForKeyTimeout" = VNum (Fin 5000)
  /\ prop (settings (constructor (Some {[ "secretForKeyTimeout" := VNum (Fin 5000);
                                          "permittedTimestampSkew" := VNum (Fin 1000) ]})))
          "permittedTimestampSkew" = VNum (Fin 1000).
Proof. vm_compute. repeat split; reflexivity. Qed.

(** ** The promise of [_getSecretForKey] *)

Section LookupFacts.
Context `{Platform}.
Implicit Types (p : Lookup) (s : Settlement) (this : Server) (apiKey : value).

Lemma settle_settled s p :
  settled (settle s p) = match settled p with None => Some s | Some s0 => Some s0 end.
Proof. reflexivity. Qed.

Lemma settled_settle_stable s s0 p :
  settled p = Some s0 -> settled (settle s p) = Some s0.
Proof. intros E. rewrite settle_settled, E. reflexivity. Qed.

Lemma callback_stable error secret s0 p :
  settled p = Some s0 -> settled (callback error secret p) = Some s0.
Proof.
  intros E. unfold callback.
  destruct (truthy error || is_undefined secret); by apply settled_settle_stable.
Qed.

Lemma step_stable this apiKey e s0 p :
  settled p = Some s0 -> settled (step this apiKey p e) = Some s0.
Proof.
  intros E. destruct e; simpl.
  - by apply callback_stable.
  - destruct (listening p); [by apply settled_settle_stable | done].
  - destruct (listening p); [by apply settled_settle_stable | done].
  - unfold timer_callback. destruct (timer p); try done. by apply settled_settle_stable.
Qed.

Lemma steps_stable this apiKey evs s0 p :
  settled p = Some s0 -> settled (foldl (step this apiKey) p evs) = Some s0.
Proof.
  revert p. induction evs as [|e evs IH]; intros p E; simpl; [done |].
  apply IH. by apply step_stable.
Qed.

Lemma lookup_ok_settle_cleared s p :
  lookup_ok p -> lookup_ok (settle s (clearTimeout p)).
Proof.
  intros (Hhd & Hf & Hset). unfold lookup_ok. simpl. repeat split.
  - rewrite Hhd. destruct (attempts p); reflexivity.
  - rewrite Hf. destruct (timer p); reflexivity.
  - intros _. destruct (settled p); eauto.
Qed.

Lemma lookup_ok_callback error secret p :
  lookup_ok p -> lookup_ok (callback error secret p).
Proof.
  intros Hok. unfold callback.
  destruct (truthy error || is_undefined secret); by apply lookup_ok_settle_cleared.
Qed.

Lemma lookup_ok_settle s p : lookup_ok p -> lookup_ok (settle s p).
Proof.
  intros (Hhd & Hf & Hset). unfold lookup_ok. simpl. repeat split.
  - rewrite Hhd. destruct (attempts p); reflexivity.
  - done.
  - intros _. destruct (settled p); eauto.
Qed.

Lemma lookup_ok_set_listening b p : lookup_ok p -> lookup_ok (set_listening b p).
Proof. intros Hok. exact Hok. Qed.

Lemma lookup_ok_step this apiKey e p :
  lookup_ok p -> lookup_ok (step this apiKey p e).
Proof.
  intros Hok. destruct e; simpl.
  - by apply lookup_ok_callback.
  - destruct (listening p); [| done].
    unfold then_handler. by apply lookup_ok_settle_cleared, lookup_ok_set_listening.
  - destruct (listening p); [| done].
    unfold catch_handler. by apply lookup_ok_settle_cleared, lookup_ok_set_listening.
  - unfold timer_callback. destruct (timer p) eqn:Et; try done.
    destruct Hok as (Hhd & Hf & Hset). unfold lookup_ok. simpl. repeat split.
    + rewrite Hhd. destruct (attempts p); reflexivity.
    + rewrite Hf, Et. reflexivity.
    + intros _. destruct (settled p); eauto.
Qed.

Lemma lookup_ok_steps this apiKey evs p :
  lookup_ok p -> lookup_ok (foldl (step this apiKey) p evs).
Proof.
  revert p. induction evs as [|e evs IH]; intros p Hok; simpl; [done |].
  by apply IH, lookup_ok_step.
Qed.

Lemma lookup_ok_callbacks (calls : list (value * value)) p :
  lookup_ok p ->
  lookup_ok (foldl (fun p '(error, secret) => callback error secret p) p calls).
Proof.
  revert p. induction calls as [|[e s] calls IH]; intros p Hok; simpl; [done |].
  by apply IH, lookup_ok_callback.
Qed.

Lemma lookup_ok_call_delegate this b : lookup_ok (call_delegate this b).
Proof.
  unfold call_delegate.
  set (p := foldl _ _ _).
  assert (Hp : lookup_ok p).
  { apply lookup_ok_callbacks. unfold lookup_ok. simpl. repeat split.
    intros [|]; discriminate. }
  destruct (completed b) as [[]|]; [done | done | by apply lookup_ok_settle].
Qed.

Lemma lookup_ok_getSecretForKey this apply apiKey :
  lookup_ok (_getSecretForKey this apply apiKey).
Proof.
  unfold _getSecretForKey.
  assert (Hno : lookup_ok (settle (Reject missing_delegate_error) pending)).
  { unfold lookup_ok. simpl. repeat split. intros [|]; discriminate. }
  destruct (secretForKey this); try exact Hno.
  apply lookup_ok_steps, lookup_ok_call_delegate.
Qed.

(** Once the timer is no longer armed it never is again, and it is no longer
    armed once the timeout has passed. *)
Lemma disarmed_step this apiKey e p :
  disarmed p -> disarmed (step this apiKey p e).
Proof.
  unfold disarmed. intros Hd. destruct e; simpl.
  - unfold callback. destruct (_ || _); simpl; destruct Hd as [-> | ->]; auto.
  - destruct (listening p); simpl; destruct Hd as [-> | ->]; auto.
  - destruct (listening p); simpl; destruct Hd as [-> | ->]; auto.
  - unfold timer_callback. destruct Hd as [Hd | Hd]; rewrite Hd; auto.
Qed.

Lemma disarmed_steps this apiKey evs p :
  disarmed p -> disarmed (foldl (step this apiKey) p evs).
Proof.
  revert p. induction evs as [|e evs IH]; intros p Hd; simpl; [done |].
  by apply IH, disarmed_step.
Qed.

Lemma set_step this apiKey e p :
  timer p <> NotSet -> timer (step this apiKey p e) <> NotSet.
Proof.
  intros Hs. destruct e; simpl.
  - unfold callback. destruct (_ || _); simpl; destruct (timer p); done.
  - destruct (listening p); simpl; destruct (timer p); done.
  - destruct (listening p); simpl; destruct (timer p); done.
  - unfold timer_callback. destruct (timer p) eqn:Et; simpl; congruence.
Qed.

Lemma disarmed_elapsed this apiKey evs p :
  timer p <> NotSet -> TimeoutElapsed ∈ evs ->
  disarmed (foldl (step this apiKey) p evs).
Proof.
  revert p. induction evs as [|e evs IH]; intros p Hs Hin; simpl.
  - by apply elem_of_nil in Hin.
  - apply elem_of_cons in Hin as [<- | Hin].
    + apply disarmed_steps. unfold disarmed. simpl. unfold timer_callback.
      destruct (timer p) eqn:Et; simpl; rewrite ?Et; auto. congruence.
    + apply IH; [by apply set_step | done].
Qed.

Lemma timer_callbacks_set (calls : list (value * value)) p :
  timer p <> NotSet ->
  timer (foldl (fun p '(error, secret) => callback error secret p) p calls) <> NotSet.
Proof.
  revert p. induction calls as [|[e s] calls IH]; intros p Hs; simpl; [done |].
  apply IH. unfold callback. destruct (_ || _); simpl; destruct (timer p); done.
Qed.

Lemma timer_call_delegate this b : timer (call_delegate this b) <> NotSet.
Proof.
  unfold call_delegate.
  set (p := foldl _ _ _).
  assert (Hp : timer p <> NotSet) by (apply timer_callbacks_set; done).
  destruct (completed b) as [[]|]; done.
Qed.

(** The timer is set to the [secretForKeyTimeout] of the settings. *)
Lemma delay_step this apiKey e p : delay (step this apiKey p e) = delay p.
Proof.
  destruct e; simpl.
  - unfold callback. by destruct (_ || _).
  - by destruct (listening p).
  - by destruct (listening p).
  - unfold timer_callback. by destruct (timer p).
Qed.

Lemma delay_callbacks (calls : list (value * value)) p :
  delay (foldl (fun p '(error, secret) => callback error secret p) p calls) = delay p.
Proof.
  revert p. induction calls as [|[e s] calls IH]; intros p; simpl; [done |].
  rewrite IH. unfold callback. by destruct (_ || _).
Qed.

Lemma delay_steps this apiKey evs p :
  delay (foldl (step this apiKey) p evs) = delay p.
Proof.
  revert p. induction evs as [|e evs IH]; intros p; simpl; [done |].
  by rewrite IH, delay_step.
Qed.

Lemma timer_delay this apply apiKey f :
  secretForKey this = VFun f ->
  delay (_getSecretForKey this apply apiKey) = prop (settings this) "secretForKeyTimeout".
Proof.
  intros Ef. unfold _getSecretForKey. rewrite Ef, delay_steps.
  unfold call_delegate.
  destruct (completed _) as [[]|]; simpl; by rewrite delay_callbacks.
Qed.

(** The settlements asked for decide the promise by their first. *)

Lemma callback_settles error secret p :
  callback error secret p = settle (callback_settlement error secret) (clearTimeout p).
Proof. unfold callback, callback_settlement. by destruct (_ || _). Qed.

Lemma head_snoc {A} (l : list A) x :
  head (l ++ [x]) = match head l with Some y => Some y | None => Some x end.
Proof. by destruct l. Qed.

Lemma tracks_kept ip p asked s :
  tracks ip p asked -> is_Some (settled p) -> tracks ip p (asked ++ [s]).
Proof.
  intros (Hhd & Ht & Hl & Hw) [s0 Hs0]. unfold tracks.
  rewrite head_snoc, <- Hhd, Hs0. auto.
Qed.

Lemma tracks_handler ip p asked s :
  tracks ip p asked ->
  tracks ip (settle s (clearTimeout (set_listening false p))) (asked ++ [s]).
Proof.
  intros (Hhd & Ht & Hl & Hw). unfold tracks. simpl.
  rewrite head_snoc, <- Hhd.
  repeat split; intros; try discriminate; destruct (settled p); eauto.
Qed.

Lemma tracks_callback ip (error secret : value) p asked :
  tracks ip p asked ->
  tracks ip (callback error secret p) (asked ++ [callback_settlement error secret]).
Proof.
  intros (Hhd & Ht & Hl & Hw). rewrite callback_settles. unfold tracks. simpl.
  rewrite head_snoc, <- Hhd.
  repeat split; intros; try (by apply Hl); destruct (settled p); eauto.
Qed.

Lemma tracks_step ip this apiKey ev p asked :
  tracks ip p asked ->
  tracks ip (step this apiKey p ev) (asked ++ event_settlement this apiKey ip ev).
Proof.
  intros Hp. pose proof Hp as (Hhd & Ht & Hl & Hw). destruct ev; simpl.
  - by apply tracks_callback.
  - destruct (listening p) eqn:Hlisten.
    + assert (ip = true) as -> by (by apply Hl).
      unfold then_handler. by apply tracks_handler.
    + destruct ip; simpl; [| by rewrite app_nil_r]. apply tracks_kept; auto.
  - destruct (listening p) eqn:Hlisten.
    + assert (ip = true) as -> by (by apply Hl).
      unfold catch_handler. by apply tracks_handler.
    + destruct ip; simpl; [| by rewrite app_nil_r]. apply tracks_kept; auto.
  - unfold timer_callback. destruct (timer p) eqn:Etimer;
      try (apply tracks_kept; [exact Hp | apply Ht; congruence]).
    unfold tracks. simpl. rewrite head_snoc, <- Hhd.
    repeat split; intros; try (by apply Hl); destruct (settled p); eauto.
Qed.

Lemma tracks_steps ip this apiKey evs p asked :
  tracks ip p asked ->
  tracks ip (foldl (step this apiKey) p evs)
    (asked ++ flat_map (event_settlement this apiKey ip) evs).
Proof.
  revert p asked. induction evs as [|ev evs IH]; intros p asked Hp; simpl.
  - by rewrite app_nil_r.
  - rewrite app_assoc. apply IH. by apply tracks_step.
Qed.

Lemma tracks_callbacks (calls : list (value * value)) p asked :
  tracks false p asked ->
  tracks false (foldl (fun p '(error, secret) => callback error secret p) p calls)
    (asked ++ map (fun call => callback_settlement call.1 call.2) calls).
Proof.
  revert p asked. induction calls as [|[e s] calls IH]; intros p asked Hp; simpl.
  - by rewrite app_nil_r.
  - specialize (IH (callback e s p) (asked ++ [callback_settlement e s])%list).
    rewrite <- app_assoc in IH. apply IH. by apply tracks_callback.
Qed.

Lemma tracks_call_delegate this b :
  tracks (returned_promise b) (call_delegate this b)
    (map (fun call => callback_settlement call.1 call.2) (during b)
     ++ match completed b with Throws exn => [Reject exn] | Returns _ => [] end).
Proof.
  unfold call_delegate, returned_promise.
  pose proof (tracks_callbacks (during b)
                (setTimeout (prop (settings this) "secretForKeyTimeout") pending) []) as Hp.
  simpl in Hp. set (p := foldl _ _ _) in *.
  destruct Hp as (Hhd & Ht & Hl & Hw).
  { unfold tracks. simpl. repeat split; try done. }
  destruct (completed b) as [[]|]; rewrite ?app_nil_r.
  - unfold tracks. simpl. repeat split; intros; try done; auto.
  - unfold tracks. repeat split; intros; try done; auto.
  - unfold tracks. simpl. rewrite head_snoc, <- Hhd.
    repeat split; intros; try (by apply Hl); destruct (settled p); eauto.
Qed.

Lemma getSecretForKey_first this apply apiKey f :
  secretForKey this = VFun f ->
  settled (_getSecretForKey this apply apiKey)
  = head (settlements this apiKey (apply f apiKey)).
Proof.
  intros Ef. unfold _getSecretForKey, settlements. rewrite Ef.
  rewrite app_assoc.
  by destruct (tracks_steps _ this apiKey (afterwards (apply f apiKey)) _ _
                 (tracks_call_delegate this (apply f apiKey))) as [Hhd _].
Qed.

(** C7: whatever the delegate does, the timer callback of [_getSecretForKey]
    runs at most once and the promise holds the first settlement that was
    attempted; it is settled as soon as there is no delegate, or the timeout
    has passed; once it is settled after part of the events, the events
    that follow (another callback, the delegate's promise, the timer) do not
    change it; and the settlement it holds is the first one asked for by
    the delegate (through the callback, by throwing, through the promise it
    returned) or by the timeout, in the order they come, and the complaint
    that the delegate is missing when there is none. *)
Theorem getSecretForKey_settles_once this apply apiKey :
  (fires (_getSecretForKey this apply apiKey) <= 1)%nat
  /\ settled (_getSecretForKey this apply apiKey)
     = head (attempts (_getSecretForKey this apply apiKey))
  /\ ((forall f, secretForKey this = VFun f ->
                 TimeoutElapsed ∈ afterwards (apply f apiKey)) ->
      is_Some (settled (_getSecretForKey this apply apiKey)))
  /\ (forall f (before after : list event) s,
        secretForKey this = VFun f ->
        afterwards (apply f apiKey) = (before ++ after)%list ->
        settled (foldl (step this apiKey) (call_delegate this (apply f apiKey)) before)
        = Some s ->
        settled (_getSecretForKey this apply apiKey) = Some s)
  /\ (forall f, secretForKey this = VFun f ->
        settled (_getSecretForKey this apply apiKey)
        = head (settlements this apiKey (apply f apiKey)))
  /\ ((forall f, secretForKey this <> VFun f) ->
      settled (_getSecretForKey this apply apiKey) = Some (Reject missing_delegate_error)).
Proof.
  pose proof (lookup_ok_getSecretForKey this apply apiKey) as (Hhd & Hf & Hset).
  repeat split.
  - rewrite Hf. destruct (timer _); lia.
  - exact Hhd.
  - intros Hfair. unfold _getSecretForKey in *.
    destruct (secretForKey this) eqn:Ef; try (simpl; eauto; fail).
    apply Hset. apply disarmed_elapsed; [apply timer_call_delegate | by apply Hfair].
  - intros f before after s Ef Hsplit Hs.
    unfold _getSecretForKey. rewrite Ef, Hsplit, foldl_app.
    by apply steps_stable.
  - intros f Ef. by apply getSecretForKey_first.
  - intros Hno. unfold _getSecretForKey.
    destruct (secretForKey this) eqn:Ef; try reflexivity.
    by destruct (Hno f).
Qed.

End LookupFacts.

(** The racing delegate of the examples: the callback wins, the promise, the
    timer and the late callback change nothing, and the timer never runs. *)
Example racing_settles_once :
  settled (_getSecretForKey (H := example_platform) (example_server 5) example_apply (VStr "K"))
  = Some (Resolve (VStr "SECRET"))
  /\ attempts (_getSecretForKey (H := example_platform) (example_server 5) example_apply (VStr "K"))
     = [Resolve (VStr "SECRET"); Resolve (VStr "OTHER"); Reject (VStr "late")]
  /\ fires (_getSecretForKey (H := example_platform) (example_server 5) example_apply (VStr "K"))
     = 0%nat.
Proof. vm_compute. repeat split; reflexivity. Qed.

(** ** What the delegate does first decides the lookup *)

Section Outcomes.
Context `{Platform}.
Implicit Types (p : Lookup) (s : Settlement) (this : Server) (apiKey : value).

Lemma callbacks_stable (calls : list (value * value)) s0 p :
  settled p = Some s0 ->
  settled (foldl (fun p '(error, secret) => callback error secret p) p calls) = Some s0.
Proof.
  revert p. induction calls as [|[e s] calls IH]; intros p E; simpl; [done |].
  by apply IH, callback_stable.
Qed.

Lemma call_delegate_stable this calls c rest s0 :
  settled (foldl (fun p '(error, secret) => callback error secret p)
             (setTimeout (prop (settings this) "secretForKeyTimeout") pending) calls)
  = Some s0 ->
  settled (call_delegate this {| during := calls; completed := c; afterwards := rest |})
  = Some s0.
Proof.
  intros E. unfold call_delegate. simpl.
  destruct c as [[]|]; [done | done | by apply settled_settle_stable].
Qed.

Lemma fulfils_settled this apply apiKey f v :
  secretForKey this = VFun f -> fulfils (apply f apiKey) v ->
  settled (_getSecretForKey this apply apiKey) = Some (Resolve v).
Proof.
  intros Ef Hb. unfold _getSecretForKey. rewrite Ef.
  inversion Hb as [v' rest Eb Ev]. simpl.
  by apply steps_stable.
Qed.

Lemma errors_settled this apply apiKey f e :
  secretForKey this = VFun f -> errors (apply f apiKey) e ->
  settled (_getSecretForKey this apply apiKey) = Some (Reject e).
Proof.
  intros Ef Hb. unfold _getSecretForKey. rewrite Ef.
  inversion Hb as [e' rest Eb Ee | e' rest Eb Ee | e' s more c rest Hc Eb Ee
                  | e' s p rest Hc Eb Ee]; subst e'; simpl; apply steps_stable.
  - reflexivity.
  - reflexivity.
  - apply call_delegate_stable. simpl. apply callbacks_stable.
    unfold callback. rewrite Hc. reflexivity.
  - simpl. unfold callback. rewrite Hc. by destruct p.
Qed.

Lemma stalls_settled this apply apiKey f :
  secretForKey this = VFun f -> stalls (apply f apiKey) ->
  settled (_getSecretForKey this apply apiKey) = Some (Reject (timeout_error this apiKey)).
Proof.
  intros Ef Hb. unfold _getSecretForKey. rewrite Ef.
  inversion Hb as [p rest Eb]. simpl.
  apply steps_stable. by destruct p.
Qed.

Lemma missing_delegate_settled this apply apiKey :
  (forall f, secretForKey this <> VFun f) ->
  settled (_getSecretForKey this apply apiKey) = Some (Reject missing_delegate_error).
Proof.
  intros Hno. unfold _getSecretForKey.
  destruct (secretForKey this) eqn:Ef; try reflexivity.
  by destruct (Hno f).
Qed.

(** Where the rejections of the lookup come from. *)

Lemma rejections_settle_resolve t errs v p :
  rejections_from t errs p -> rejections_from t errs (settle (Resolve v) p).
Proof.
  intros Hp e. simpl. rewrite elem_of_app, list_elem_of_singleton.
  intros [Hin | Heq]; [by apply Hp | discriminate].
Qed.

Lemma rejections_settle_reject t errs e0 p :
  e0 = t \/ e0 ∈ errs ->
  rejections_from t errs p -> rejections_from t errs (settle (Reject e0) p).
Proof.
  intros He Hp e. simpl. rewrite elem_of_app, list_elem_of_singleton.
  intros [Hin | Heq]; [by apply Hp | by inversion Heq; subst].
Qed.

Lemma rejections_callback t errs error secret p :
  callback_says (error, secret) = true ->
  callback_errors (error, secret) ⊆ errs ->
  rejections_from t errs p -> rejections_from t errs (callback error secret p).
Proof.
  unfold callback_says, callback_errors, callback. simpl. intros Hsays Hsub Hp.
  destruct (truthy error); simpl in *.
  - apply rejections_settle_reject; [right; apply Hsub; by left | exact Hp].
  - apply negb_true_iff in Hsays. rewrite Hsays.
    apply rejections_settle_resolve. exact Hp.
Qed.

Lemma rejections_step this apiKey errs ev p :
  event_says ev = true ->
  event_errors ev ⊆ errs ->
  rejections_from (timeout_error this apiKey) errs p ->
  rejections_from (timeout_error this apiKey) errs (step this apiKey p ev).
Proof.
  intros Hsays Hsub Hp. destruct ev; simpl in *.
  - by apply rejections_callback.
  - destruct (listening p); [| exact Hp].
    unfold then_handler. apply rejections_settle_resolve. exact Hp.
  - destruct (listening p); [| exact Hp].
    unfold catch_handler. apply rejections_settle_reject; [right; apply Hsub; by left | exact Hp].
  - unfold timer_callback. destruct (timer p); try exact Hp.
    apply rejections_settle_reject; [by left | exact Hp].
Qed.

Lemma rejections_steps this apiKey errs evs p :
  forallb event_says evs = true ->
  flat_map event_errors evs ⊆ errs ->
  rejections_from (timeout_error this apiKey) errs p ->
  rejections_from (timeout_error this apiKey) errs (foldl (step this apiKey) p evs).
Proof.
  revert p. induction evs as [|ev evs IH]; intros p Hsays Hsub Hp; simpl; [done |].
  simpl in Hsub, Hsays. apply andb_true_iff in Hsays as [Hev Hevs]. apply IH.
  - exact Hevs.
  - intros x Hx. apply Hsub. apply elem_of_app. by right.
  - apply rejections_step; [done | | done].
    intros x Hx. apply Hsub. apply elem_of_app. by left.
Qed.

Lemma rejections_callbacks t errs (calls : list (value * value)) p :
  forallb callback_says calls = true ->
  flat_map callback_errors calls ⊆ errs ->
  rejections_from t errs p ->
  rejections_from t errs (foldl (fun p '(error, secret) => callback error secret p) p calls).
Proof.
  revert p. induction calls as [|[e s] calls IH]; intros p Hsays Hsub Hp; simpl; [done |].
  simpl in Hsub, Hsays. apply andb_true_iff in Hsays as [Hcall Hcalls]. apply IH.
  - exact Hcalls.
  - intros x Hx. apply Hsub. apply elem_of_app. by right.
  - apply rejections_callback; [done | | done].
    intros x Hx. apply Hsub. apply elem_of_app. by left.
Qed.

Lemma rejections_getSecretForKey this apply apiKey f :
  secretForKey this = VFun f ->
  outspoken (apply f apiKey) = true ->
  rejections_from (timeout_error this apiKey) (delegate_errors (apply f apiKey))
    (_getSecretForKey this apply apiKey).
Proof.
  intros Ef Hsays. unfold _getSecretForKey. rewrite Ef.
  set (b := apply f apiKey) in *. unfold delegate_errors.
  apply andb_true_iff in Hsays as [Hduring Hafter].
  apply rejections_steps; [exact Hafter | |].
  { intros x Hx. rewrite !elem_of_app. right. right. exact Hx. }
  unfold call_delegate.
  set (p := foldl _ _ _).
  assert (Hp : rejections_from (timeout_error this apiKey)
                 (flat_map callback_errors (during b)
                  ++ match completed b with Throws e => [e] | Returns _ => [] end
                  ++ flat_map event_errors (afterwards b)) p).
  { apply rejections_callbacks; [exact Hduring | |].
    - intros x Hx. rewrite !elem_of_app. by left.
    - intros e He. simpl in He. by apply elem_of_nil in He. }
  destruct (completed b) as [[]|]; [done | done |].
  apply rejections_settle_reject; [| done].
  right. rewrite !elem_of_app. right. left. by left.
Qed.

(** A rejected lookup hands on the timeout, an error of the delegate, or
    the complaint that there is no delegate. *)
Lemma getSecretForKey_rejection this apply apiKey e :
  (forall f, secretForKey this = VFun f -> outspoken (apply f apiKey) = true) ->
  settled (_getSecretForKey this apply apiKey) = Some (Reject e) ->
  ((forall f, secretForKey this <> VFun f) /\ e = missing_delegate_error)
  \/ (exists f, secretForKey this = VFun f
                /\ (e = timeout_error this apiKey \/ e ∈ delegate_errors (apply f apiKey))).
Proof.
  intros Hsays Hs.
  destruct (secretForKey this) eqn:Ef.
  7: { right. exists f. split; [done |].
       apply (rejections_getSecretForKey this apply apiKey f Ef (Hsays f eq_refl)).
       pose proof (lookup_ok_getSecretForKey this apply apiKey) as (Hhd & _).
       rewrite Hs in Hhd. symmetry in Hhd.
       by apply head_Some_elem_of. }
  all: left; split; [intros f; discriminate |].
  all: unfold _getSecretForKey in Hs; rewrite Ef in Hs; simpl in Hs; congruence.
Qed.

End Outcomes.

(** ** Runs of [authenticate] *)

Section Runs.
Context `{Platform}.
Implicit Types (this : Server) (apply : nat -> value -> Behaviour) (req : Request)
  (data secret : value) (now : Z).

Lemma getApiKey_set_prop k v req : _getApiKey (set_prop k v req) = _getApiKey req.
Proof. reflexivity. Qed.

(** [_getApiKey] throws only where [url.parse] does. *)
Lemma getApiKey_None req : _getApiKey req = None -> url_parse (url req) = None.
Proof.
  unfold _getApiKey. destruct (hasOwnProperty _ _); [discriminate |].
  destruct (query req); [discriminate |].
  by destruct (url_parse (url req)).
Qed.

Lemma calculated_parsed req data secret algorithm :
  is_Some (url_parse (url req)) -> is_Some (calculated req data secret algorithm).
Proof. intros [u Hu]. unfold calculated. rewrite Hu. eauto. Qed.


Lemma getRawBody_set_prop k v req :
  k <> "rawBody" -> _getRawBody (set_prop k v req) = _getRawBody req.
Proof.
  intros Hne. unfold _getRawBody, prop. simpl. by rewrite lookup_insert_ne.
Qed.

Lemma header_set_prop k v req h : header (set_prop k v req) h = header req h.
Proof. reflexivity. Qed.

Lemma header_Some req k v : headers req !! k = Some v -> header req k = v.
Proof. intros E. unfold header. by rewrite E. Qed.

Ltac unfold_run :=
  unfold authenticate, uncaught, authenticate_body, apiKey_of;
  cbv beta iota zeta delta
    [when reject resolve assign reads calls await_getSecretForKey
     mbind mret Exec_bind Exec_ret].

Ltac simpl_run :=
  cbn beta iota zeta delta
    [request writes invoked fst snd set_prop headers url method query chunks props negb app
     from_option id];
  rewrite ?getApiKey_set_prop, ?header_set_prop, ?getRawBody_set_prop by discriminate.

Ltac split_run :=
  match goal with
  | |- context [if ?c then _ else _] => destruct c eqn:?
  | |- context [match settled ?l with _ => _ end] =>
      destruct (settled l) as [[?secret|?error]|] eqn:?
  | |- context [match _getApiKey ?r with _ => _ end] =>
      destruct (_getApiKey r) as [?apiKey|] eqn:?
  | |- context [match url_parse ?u with _ => _ end] =>
      destruct (url_parse u) as [?requestURL|] eqn:?
  end; simpl_run.

(** The hypothesis [Hk] that a key was found gives the key [_getApiKey]
    returns. *)
Ltac found_key Hk Ek :=
  unfold apiKey_of in *;
  destruct (_getApiKey _) as [?apiKey|] eqn:Ek; [| discriminate Hk];
  cbn [from_option id] in *.

Ltac decide_outcome Hout :=
  repeat match type of Hout with
         | (if ?c then _ else _) = _ => destruct c
         | match calculated ?r ?d ?s ?al with _ => _ end = _ =>
             destruct (calculated r d s al)
         end.

Ltac run := unfold_run; simpl_run; repeat split_run.

(** What a run that reaches the timestamp check ends with. *)
Lemma authenticate_from_timestamp this apply now req data secret a d :
  reaches_timestamp this apply req secret a d ->
  snd (authenticate this apply now req data)
  = if num_gt (num_sub (Fin now) (Date_parse d))
              (ToNumber (prop (settings this) "permittedTimestampSkew"))
    then Some (Reject (DATE_HEADER_INVALID d now))
    else if (length (split_space a) <? 3)%nat
    then Some (Reject (AUTHORIZATION_HEADER_INVALID a))
    else if negb (String.eqb (nth 0 (split_space a) "") "signature")
    then Some (Reject (AUTHORIZATION_HEADER_INVALID_label a))
    else if negb (bool_decide (nth 1 (split_space a) "" ∈ algorithms))
    then Some (Reject (HMAC_ALGORITHM_INVALID (nth 1 (split_space a) "")))
    else match calculated req data secret (nth 1 (split_space a) "") with
         | None => None
         | Some calculatedSignature =>
             if negb (String.eqb (nth 2 (split_space a) "") calculatedSignature)
             then Some (Reject SIGNATURE_INVALID)
             else Some (Resolve (VObj [("apiKey", apiKey_of req); ("secret", secret);
                                       ("signature", VStr (nth 2 (split_space a) ""))]))
         end.
Proof.
  intros [Hk Hs Hd Ha Hdate].
  unfold calculated, body_of. found_key Hk Ek.
  unfold_run; simpl_run.
  destruct (is_true data); simpl_run.
  all: rewrite Ek; simpl_run.
  all: rewrite Hk; simpl_run; rewrite Hs; simpl_run; rewrite Hd; simpl_run.
  all: rewrite (hasOwnProperty_Some _ _ _ Ha), (hasOwnProperty_Some _ _ _ Hdate); simpl_run.
  all: rewrite (header_Some _ _ _ Hdate); split_run; [reflexivity |].
  all: rewrite (header_Some _ _ _ Ha).
  all: repeat split_run; reflexivity.
Qed.


Ltac not_key :=
  let Hin := fresh in
  intros Hin; cbn in Hin;
  repeat (apply elem_of_cons in Hin as [Hin | Hin]; [discriminate Hin |]);
  by apply elem_of_nil in Hin.

Ltac lookup_props :=
  rewrite ?lookup_insert_eq;
  repeat (rewrite lookup_insert_ne by discriminate; rewrite ?lookup_insert_eq);
  try reflexivity.

(** C4: every run of [authenticate] first writes [authenticated = false];
    when the promise is resolved, the only other write to the flag is the
    last write of the run, [authenticated = true], and the presented
    signature equals the recomputed one; in every other run (a rejection, or
    a promise left pending) the flag is never written again and is [false]
    at the end. *)
Theorem authenticated_only_after_match this apply now req data :
  exists rest,
    writes (fst (authenticate this apply now req data)) = ("authenticated", VBool false) :: rest
    /\ match snd (authenticate this apply now req data) with
       | Some (Resolve _) =>
           (exists mid, rest = (mid ++ [("authenticated", VBool true)])%list
                        /\ ("authenticated" ∉ mid.*1))
           /\ props (request (fst (authenticate this apply now req data))) !! "authenticated"
              = Some (VBool true)
           /\ exists secret,
                settled (_getSecretForKey this apply (apiKey_of req)) = Some (Resolve secret)
                /\ calculated req data secret
                     (nth 1 (split_space (header req "authorization")) "")
                   = Some (nth 2 (split_space (header req "authorization")) "")
       | _ =>
           ("authenticated" ∉ rest.*1)
           /\ props (request (fst (authenticate this apply now req data))) !! "authenticated"
              = Some (VBool false)
       end.
Proof.
  unfold calculated, body_of.
  run.
  all: eexists; split; [reflexivity |].
  all: try (split; [not_key | lookup_props]; fail).
  all: split; [first [ eexists [_; _; _; _; _]; split; [reflexivity | not_key]
                     | eexists [_; _; _; _]; split; [reflexivity | not_key] ] |].
  all: split; [lookup_props |].
  all: eexists; split; [reflexivity |].
  all: match goal with
       | Hm : negb (String.eqb _ _) = false |- _ =>
           apply negb_false_iff, String.eqb_eq in Hm; by rewrite Hm
       end.
Qed.


(** *** Key extraction and secret resolution *)

Lemma authenticate_without_key this apply now req data :
  _getApiKey req = Some VUndefined ->
  snd (authenticate this apply now req data) = Some (Reject API_KEY_MISSING)
  /\ invoked (fst (authenticate this apply now req data)) = [].
Proof.
  intros Ek. unfold_run; simpl_run.
  destruct (is_true data); simpl_run; rewrite Ek; simpl_run; done.
Qed.

(** When [_getApiKey] throws, the run ends there: nothing is settled and
    nothing was called. *)
Lemma authenticate_key_raises this apply now req data :
  _getApiKey req = None ->
  snd (authenticate this apply now req data) = None
  /\ uncaught this apply now req data = true
  /\ invoked (fst (authenticate this apply now req data)) = [].
Proof.
  intros Ek. unfold_run; simpl_run.
  destruct (is_true data); simpl_run; rewrite Ek; simpl_run; done.
Qed.

Lemma authenticate_with_key this apply now req data :
  is_undefined (apiKey_of req) = false ->
  props (request (fst (authenticate this apply now req data))) !! "apiKey"
  = Some (apiKey_of req)
  /\ invoked (fst (authenticate this apply now req data))
     = match secretForKey this with VFun _ => [apiKey_of req] | _ => [] end.
Proof.
  intros Hk. found_key Hk Ek. unfold_run; simpl_run.
  destruct (is_true data); simpl_run; rewrite Ek; simpl_run; rewrite Hk; simpl_run.
  all: repeat split_run.
  all: split; [lookup_props | reflexivity].
Qed.

Lemma authenticate_lookup_pending this apply now req data :
  is_undefined (apiKey_of req) = false ->
  settled (_getSecretForKey this apply (apiKey_of req)) = None ->
  snd (authenticate this apply now req data) = None.
Proof.
  intros Hk Hs. found_key Hk Ek. unfold_run; simpl_run.
  destruct (is_true data); simpl_run; rewrite Ek; simpl_run; rewrite Hk; simpl_run;
    rewrite Hs; done.
Qed.

Lemma authenticate_lookup_rejected this apply now req data e :
  is_undefined (apiKey_of req) = false ->
  settled (_getSecretForKey this apply (apiKey_of req)) = Some (Reject e) ->
  snd (authenticate this apply now req data)
  = Some (Reject (if is_undefined e
                  then INTERNAL_ERROR_SECRET_DISCOVERY (apiKey_of req) else e)).
Proof.
  intros Hk Hs. found_key Hk Ek. unfold_run; simpl_run.
  destruct (is_true data); simpl_run; rewrite Ek; simpl_run; rewrite Hk; simpl_run;
    rewrite Hs; simpl_run.
  all: destruct (is_undefined e); reflexivity.
Qed.

Lemma authenticate_secret_undefined this apply now req data secret :
  is_undefined (apiKey_of req) = false ->
  settled (_getSecretForKey this apply (apiKey_of req)) = Some (Resolve secret) ->
  is_undefined secret = true ->
  snd (authenticate this apply now req data)
  = Some (Reject (API_KEY_UNRECOGNIZED (apiKey_of req))).
Proof.
  intros Hk Hs Hu. found_key Hk Ek. unfold_run; simpl_run.
  destruct (is_true data); simpl_run; rewrite Ek; simpl_run; rewrite Hk; simpl_run;
    rewrite Hs; simpl_run.
  all: rewrite Hu; reflexivity.
Qed.

(** The API key [_getApiKey] finds, source by source. *)
Lemma getApiKey_header req h :
  headers req !! "x-api-key" = Some h -> _getApiKey req = Some (VStr h).
Proof.
  intros E. unfold _getApiKey.
  rewrite (hasOwnProperty_Some _ _ _ E), (header_Some _ _ _ E). reflexivity.
Qed.

Lemma getApiKey_query req q :
  headers req !! "x-api-key" = None -> query req = Some q ->
  _getApiKey req = Some (prop q "apiKey").
Proof.
  intros E Hq. unfold _getApiKey. rewrite (hasOwnProperty_None _ _ E), Hq.
  destruct (prop _ "apiKey"); reflexivity.
Qed.

Lemma getApiKey_url req requestURL :
  headers req !! "x-api-key" = None -> query req = None ->
  url_parse (url req) = Some requestURL ->
  _getApiKey req = Some (prop (querystring_parse (search_query requestURL)) "apiKey").
Proof.
  intros E Hq Hu. unfold _getApiKey. rewrite (hasOwnProperty_None _ _ E), Hq, Hu.
  destruct (prop _ "apiKey"); reflexivity.
Qed.

Lemma getApiKey_throws req :
  headers req !! "x-api-key" = None -> query req = None ->
  url_parse (url req) = None ->
  _getApiKey req = None.
Proof.
  intros E Hq Hu. unfold _getApiKey. by rewrite (hasOwnProperty_None _ _ E), Hq, Hu.
Qed.

Lemma authenticate_key this apply now req data v :
  _getApiKey req = Some v -> is_undefined v = false ->
  props (request (fst (authenticate this apply now req data))) !! "apiKey" = Some v
  /\ forall f, secretForKey this = VFun f ->
               invoked (fst (authenticate this apply now req data)) = [v].
Proof.
  intros Ek Hu.
  destruct (authenticate_with_key this apply now req data) as [Hp Hi];
    [unfold apiKey_of; by rewrite Ek |].
  unfold apiKey_of in Hp, Hi. rewrite Ek in Hp, Hi. simpl in Hp, Hi.
  split; [exact Hp |].
  intros f Ef. by rewrite Hi, Ef.
Qed.

(** C8, which the code breaks where [url.parse] throws: [authenticate] uses
    the [x-api-key] header as the API key when the request has one; without
    that header it uses the [apiKey] entry of [request.query] when the
    request has a [query], and of the parsed query string of the URL
    otherwise; the key it uses is the one stored on the request and the only
    one the delegate is called with; when the source it turns to gives no
    key the promise is rejected with [API_KEY_MISSING] and the delegate has
    not been called; but when it turns to the URL and [url.parse] throws, the
    exception leaves the executor: the promise is not rejected, with
    [API_KEY_MISSING] or anything else, it is left pending, and the delegate
    has not been called. *)
Theorem api_key_extraction this apply now req data :
  (forall h, headers req !! "x-api-key" = Some h ->
     props (request (fst (authenticate this apply now req data))) !! "apiKey" = Some (VStr h)
     /\ forall f, secretForKey this = VFun f ->
                  invoked (fst (authenticate this apply now req data)) = [VStr h])
  /\ (forall q v, headers req !! "x-api-key" = None -> query req = Some q ->
        q !! "apiKey" = Some v -> is_undefined v = false ->
        props (request (fst (authenticate this apply now req data))) !! "apiKey" = Some v
        /\ forall f, secretForKey this = VFun f ->
                     invoked (fst (authenticate this apply now req data)) = [v])
  /\ (forall requestURL v, headers req !! "x-api-key" = None -> query req = None ->
        url_parse (url req) = Some requestURL ->
        querystring_parse (search_query requestURL) !! "apiKey" = Some v ->
        is_undefined v = false ->
        props (request (fst (authenticate this apply now req data))) !! "apiKey" = Some v
        /\ forall f, secretForKey this = VFun f ->
                     invoked (fst (authenticate this apply now req data)) = [v])
  /\ (forall q, headers req !! "x-api-key" = None ->
        (query req = Some q
         \/ (query req = None
             /\ exists requestURL, url_parse (url req) = Some requestURL
                                   /\ q = querystring_parse (search_query requestURL))) ->
        prop q "apiKey" = VUndefined ->
        rejects_with (snd (authenticate this apply now req data)) "API_KEY_MISSING"
        /\ invoked (fst (authenticate this apply now req data)) = [])
  /\ (headers req !! "x-api-key" = None -> query req = None ->
      url_parse (url req) = None ->
      snd (authenticate this apply now req data) = None
      /\ uncaught this apply now req data = true
      /\ invoked (fst (authenticate this apply now req data)) = []).
Proof.
  split; [| split; [| split; [| split]]].
  - intros h Hh. apply authenticate_key; [by apply getApiKey_header | reflexivity].
  - intros q v Hh Hq Hv Hu. apply authenticate_key; [| exact Hu].
    rewrite (getApiKey_query req q Hh Hq). unfold prop. by rewrite Hv.
  - intros requestURL v Hh Hq Hurl Hv Hu. apply authenticate_key; [| exact Hu].
    rewrite (getApiKey_url req requestURL Hh Hq Hurl). unfold prop. by rewrite Hv.
  - intros q Hh Hq Hv.
    assert (Ek : _getApiKey req = Some VUndefined).
    { destruct Hq as [Hq | (Hq & requestURL & Hurl & ->)].
      - by rewrite (getApiKey_query req q Hh Hq), Hv.
      - by rewrite (getApiKey_url req requestURL Hh Hq Hurl), Hv. }
    destruct (authenticate_without_key this apply now req data Ek) as [Ho Hi].
    split; [| exact Hi].
    exists API_KEY_MISSING. split; [exact Ho | reflexivity].
  - intros Hh Hq Hurl.
    apply authenticate_key_raises. by apply getApiKey_throws.
Qed.


(** *** The frame of a run *)

Lemma not_annotation k :
  k ∉ annotations ->
  "authenticated" <> k /\ "body" <> k /\ "apiKey" <> k /\ "secret" <> k
  /\ "signature" <> k /\ "signatureExpected" <> k.
Proof.
  unfold annotations. rewrite !not_elem_of_cons. intros Hk.
  repeat split; intros <-; tauto.
Qed.

Ltac in_writes Hin :=
  cbn in Hin;
  repeat (apply elem_of_cons in Hin as [Hin | Hin];
          [inversion Hin; subst; clear Hin |]);
  try (by apply elem_of_nil in Hin).

(** C6, as the code has it: a run of [authenticate] leaves the method, URL,
    headers and query of the request alone and assigns to no property
    other than [authenticated], [apiKey], [secret], [signature],
    [signatureExpected] and [body]; [body] is assigned only when [data] is
    the sentinel [true]; every other property keeps its value; and what is
    written to [signatureExpected] is the recomputed signature. *)
Theorem authenticate_frame this apply now req data :
  (method (request (fst (authenticate this apply now req data))) = method req
   /\ url (request (fst (authenticate this apply now req data))) = url req
   /\ headers (request (fst (authenticate this apply now req data))) = headers req
   /\ query (request (fst (authenticate this apply now req data))) = query req)
  /\ (forall k v, (k, v) ∈ writes (fst (authenticate this apply now req data)) ->
        k ∈ annotations /\ (k = "body" -> is_true data = true))
  /\ (forall k, k ∉ annotations ->
        props (request (fst (authenticate this apply now req data))) !! k = props req !! k)
  /\ (is_true data = false ->
      props (request (fst (authenticate this apply now req data))) !! "body"
      = props req !! "body")
  /\ (forall v, ("signatureExpected", v) ∈ writes (fst (authenticate this apply now req data)) ->
        exists secret calculatedSignature,
          settled (_getSecretForKey this apply (apiKey_of req)) = Some (Resolve secret)
          /\ calculated req data secret
               (nth 1 (split_space (header req "authorization")) "")
             = Some calculatedSignature
          /\ v = VStr calculatedSignature).
Proof.
  unfold calculated, body_of.
  run.
  all: split; [repeat split |].
  all: split; [intros k v Hin; in_writes Hin;
               (split; [unfold annotations; rewrite !elem_of_cons; tauto
                       | first [discriminate | intros _; assumption | intros _; reflexivity]]) |].
  all: split; [intros k Hk; apply not_annotation in Hk as (? & ? & ? & ? & ? & ?);
               rewrite ?lookup_insert_ne by assumption; reflexivity |].
  all: split; [first [discriminate | intros _; lookup_props] |].
  all: intros v Hin; in_writes Hin.
  all: do 2 eexists; repeat split; reflexivity.
Qed.


(** *** Rejections *)

Lemma verifier_code_listed c :
  c = "API_KEY_MISSING" \/ c = "INTERNAL_ERROR_SECRET_DISCOVERY"
  \/ c = "INTERNAL_ERROR_SECRET_TIMEOUT" \/ c = "API_KEY_UNRECOGNIZED"
  \/ c = "AUTHORIZATION_HEADER_MISSING" \/ c = "DATE_HEADER_MISSING"
  \/ c = "DATE_HEADER_INVALID" \/ c = "AUTHORIZATION_HEADER_INVALID"
  \/ c = "HMAC_ALGORITHM_INVALID" \/ c = "SIGNATURE_INVALID" ->
  c ∈ verifier_codes.
Proof. unfold verifier_codes. rewrite !elem_of_cons. tauto. Qed.

(** A rejection of [authenticate] is one it built itself, with a code, or
    the rejection of the lookup, handed on as it is. *)
Lemma authenticate_rejection this apply now req data e :
  snd (authenticate this apply now req data) = Some (Reject e) ->
  (exists c, code_of e = Some c /\ c ∈ verifier_codes)
  \/ (settled (_getSecretForKey this apply (apiKey_of req)) = Some (Reject e)
      /\ is_undefined e = false).
Proof.
  run; intros Hout; try discriminate Hout.
  all: inversion Hout; subst; clear Hout.
  all: try (left; eexists; split; [reflexivity | apply verifier_code_listed; tauto]).
  all: right; split; [reflexivity | assumption].
Qed.

(** A promise left pending waits for the lookup, unless [url.parse] threw. *)
Lemma authenticate_pending this apply now req data :
  snd (authenticate this apply now req data) = None ->
  url_parse (url req) = None
  \/ settled (_getSecretForKey this apply (apiKey_of req)) = None.
Proof.
  run; intros Hout; try discriminate Hout.
  all: first [right; reflexivity | left; reflexivity | left; by apply getApiKey_None].
Qed.

Lemma getSecretForKey_settles this apply apiKey :
  (forall f, secretForKey this = VFun f ->
             TimeoutElapsed ∈ afterwards (apply f apiKey)) ->
  is_Some (settled (_getSecretForKey this apply apiKey)).
Proof.
  intros Hfair.
  pose proof (lookup_ok_getSecretForKey this apply apiKey) as (_ & _ & Hset).
  unfold _getSecretForKey in *.
  destruct (secretForKey this) eqn:Ef; try (simpl; eauto; fail).
  apply Hset. apply disarmed_elapsed; [apply timer_call_delegate | by apply Hfair].
Qed.

(** C5, as the code has it: without a delegate [authenticate] rejects at once, with
    an object that says so, and calls nothing; when the timeout of the
    lookup eventually passes and [url.parse] takes the URL of the request,
    the promise of [authenticate] does not stay pending; and, the delegate
    never calling back with neither an error nor a secret, every rejection
    value is an object with one of the verifier's codes, or the object
    rejected for want of a delegate, or a value other than [undefined] that
    the delegate itself gave as its error (thrown, through its promise, or
    to the callback), handed on unchanged. *)
Theorem rejections_structured this apply now req data :
  ((forall f, secretForKey this <> VFun f) ->
   is_undefined (apiKey_of req) = false ->
   (exists e, snd (authenticate this apply now req data) = Some (Reject e)
              /\ get "message" e = Some (VStr "Missing secretForKey function"))
   /\ invoked (fst (authenticate this apply now req data)) = [])
  /\ ((forall f, secretForKey this = VFun f ->
                 TimeoutElapsed ∈ afterwards (apply f (apiKey_of req))) ->
      is_Some (url_parse (url req)) ->
      is_Some (snd (authenticate this apply now req data)))
  /\ (forall e, snd (authenticate this apply now req data) = Some (Reject e) ->
        (forall f, secretForKey this = VFun f ->
                   outspoken (apply f (apiKey_of req)) = true) ->
        (exists c, code_of e = Some c /\ c ∈ verifier_codes)
        \/ ((forall f, secretForKey this <> VFun f)
            /\ exists m, get "message" e = Some (VStr m))
        \/ (exists f, secretForKey this = VFun f
                      /\ e ∈ delegate_errors (apply f (apiKey_of req))
                      /\ is_undefined e = false)).
Proof.
  split; [| split].
  - intros Hno Hk. split.
    + exists missing_delegate_error. split; [| reflexivity].
      rewrite (authenticate_lookup_rejected this apply now req data missing_delegate_error Hk);
        [reflexivity | by apply missing_delegate_settled].
    + destruct (authenticate_with_key this apply now req data Hk) as [_ Hi].
      rewrite Hi. destruct (secretForKey this) eqn:Ef; try reflexivity.
      by destruct (Hno f).
  - intros Hfair [requestURL Hurl].
    destruct (snd (authenticate this apply now req data)) eqn:Hout; [eauto |].
    apply authenticate_pending in Hout as [Hout | Hout]; [congruence |].
    destruct (getSecretForKey_settles this apply (apiKey_of req) Hfair) as [s Hs].
    congruence.
  - intros e Hout Hsays.
    destruct (authenticate_rejection _ _ _ _ _ _ Hout) as [Hc | [Hs Hu]]; [by left |].
    destruct (getSecretForKey_rejection _ _ _ _ Hsays Hs)
      as [[Hno ->] | (f & Ef & [-> | Hin])].
    + right. left. split; [exact Hno | eexists; reflexivity].
    + left. eexists. split; [reflexivity | apply verifier_code_listed; tauto].
    + right. right. exists f. auto.
Qed.

(** C2, as the code has it: with a delegate installed and an API key found,
    [authenticate] rejects with [API_KEY_UNRECOGNIZED] when the promise of
    the delegate is fulfilled with [undefined]; when the delegate errors
    (throws, rejects its promise, or calls back with an error) it rejects
    with [INTERNAL_ERROR_SECRET_DISCOVERY] if the error value is
    [undefined] and with the error value itself otherwise; and when
    the delegate has done nothing by the timeout it rejects with
    [INTERNAL_ERROR_SECRET_TIMEOUT]. *)
Theorem secret_resolution_outcomes this apply now req data f :
  secretForKey this = VFun f ->
  is_undefined (apiKey_of req) = false ->
  (fulfils (apply f (apiKey_of req)) VUndefined ->
   rejects_with (snd (authenticate this apply now req data)) "API_KEY_UNRECOGNIZED")
  /\ (forall e, errors (apply f (apiKey_of req)) e ->
        if is_undefined e
        then rejects_with (snd (authenticate this apply now req data))
               "INTERNAL_ERROR_SECRET_DISCOVERY"
        else snd (authenticate this apply now req data) = Some (Reject e))
  /\ (stalls (apply f (apiKey_of req)) ->
      rejects_with (snd (authenticate this apply now req data))
        "INTERNAL_ERROR_SECRET_TIMEOUT").
Proof.
  intros Ef Hk. split; [| split].
  - intros Hb. exists (API_KEY_UNRECOGNIZED (apiKey_of req)). split; [| reflexivity].
    apply (authenticate_secret_undefined this apply now req data VUndefined Hk);
      [by eapply fulfils_settled | reflexivity].
  - intros e Hb.
    pose proof (errors_settled this apply _ f e Ef Hb) as Hs.
    rewrite (authenticate_lookup_rejected this apply now req data e Hk Hs).
    destruct (is_undefined e); [| reflexivity].
    eexists. split; reflexivity.
  - intros Hb.
    pose proof (stalls_settled this apply _ f Ef Hb) as Hs.
    rewrite (authenticate_lookup_rejected this apply now req data _ Hk Hs).
    eexists. split; reflexivity.
Qed.

(** *** The checks on the headers *)

Lemma code_distinct e c c' :
  code_of e = Some c -> c <> c' -> code_of e = Some c' -> False.
Proof. congruence. Qed.

(** C1, as the code has it: for a run that reaches the timestamp check with a date
    header that parses to the time [t], under a skew setting of [k]
    milliseconds, [authenticate] rejects with [DATE_HEADER_INVALID] exactly
    when [now - t > k]: a request dated more than the skew before now is
    rejected whatever its secret, algorithm and signature, and a request
    dated in the future is not rejected by this check. *)
Theorem timestamp_freshness this apply now req data secret a d t k :
  reaches_timestamp this apply req secret a d ->
  Date_parse d = Fin t ->
  prop (settings this) "permittedTimestampSkew" = VNum (Fin k) ->
  rejects_with (snd (authenticate this apply now req data)) "DATE_HEADER_INVALID"
  <-> k < now - t.
Proof.
  intros Hr Ht Hk.
  rewrite (authenticate_from_timestamp this apply now req data secret a d Hr).
  rewrite Ht, Hk. simpl.
  destruct (k <? now - t) eqn:Hlt.
  - apply Z.ltb_lt in Hlt. split; [done |].
    intros _. eexists. split; reflexivity.
  - apply Z.ltb_ge in Hlt. split; [| lia].
    intros (e & Hout & Hc). exfalso.
    decide_outcome Hout; inversion Hout; subst; vm_compute in Hc; discriminate Hc.
Qed.

(** C10: for a run that reaches the timestamp check with a date header that
    does not parse (its time value is [NaN]), [authenticate] does not reject
    with [DATE_HEADER_INVALID]; the run goes on to the authorization header
    and the signature, which decide it: the promise is resolved exactly when
    the header has at least three components, the first is [signature], the
    algorithm is supported and the presented signature is the recomputed
    one, and, [url.parse] taking the URL of the request, is otherwise
    rejected with [AUTHORIZATION_HEADER_INVALID], [HMAC_ALGORITHM_INVALID]
    or [SIGNATURE_INVALID]. *)
Theorem invalid_date_passes this apply now req data secret a d :
  reaches_timestamp this apply req secret a d ->
  Date_parse d = NaN ->
  ~ rejects_with (snd (authenticate this apply now req data)) "DATE_HEADER_INVALID"
  /\ ((exists v, snd (authenticate this apply now req data) = Some (Resolve v))
      <-> ((3 <= length (split_space a))%nat
           /\ nth 0 (split_space a) "" = "signature"
           /\ nth 1 (split_space a) "" ∈ algorithms
           /\ calculated req data secret (nth 1 (split_space a) "")
              = Some (nth 2 (split_space a) "")))
  /\ (is_Some (url_parse (url req)) ->
      (exists v, snd (authenticate this apply now req data) = Some (Resolve v))
      \/ rejects_with (snd (authenticate this apply now req data))
            "AUTHORIZATION_HEADER_INVALID"
      \/ rejects_with (snd (authenticate this apply now req data)) "HMAC_ALGORITHM_INVALID"
      \/ rejects_with (snd (authenticate this apply now req data)) "SIGNATURE_INVALID").
Proof.
  intros Hr Hnan.
  rewrite (authenticate_from_timestamp this apply now req data secret a d Hr).
  rewrite Hnan. simpl.
  destruct (length (split_space a) <? 3)%nat eqn:Hlen;
    [apply Nat.ltb_lt in Hlen | apply Nat.ltb_ge in Hlen].
  { split; [| split].
    - intros (e & Hout & Hc). inversion Hout; subst. vm_compute in Hc. discriminate.
    - split; [intros [v Hv]; discriminate | intros (Hl & _); lia].
    - intros _. right. left. eexists. split; reflexivity. }
  destruct (String.eqb (nth 0 (split_space a) "") "signature") eqn:Hlab; simpl;
    [apply String.eqb_eq in Hlab | apply String.eqb_neq in Hlab].
  2: { split; [| split].
    - intros (e & Hout & Hc). inversion Hout; subst. vm_compute in Hc. discriminate.
    - split; [intros [v Hv]; discriminate | intros (_ & Hl & _); congruence].
    - intros _. right. left. eexists. split; reflexivity. }
  case_bool_decide as Halg; simpl.
  2: { split; [| split].
    - intros (e & Hout & Hc). inversion Hout; subst. vm_compute in Hc. discriminate.
    - split; [intros [v Hv]; discriminate | intros (_ & _ & Hl & _); contradiction].
    - intros _. right. right. left. eexists. split; reflexivity. }
  destruct (calculated req data secret (nth 1 (split_space a) ""))
    as [calculatedSignature|] eqn:Hcalc.
  2: { split; [| split].
    - intros (e & Hout & Hc). discriminate.
    - split; [intros [v Hv]; discriminate | intros (_ & _ & _ & Hl); discriminate].
    - intros Hurl.
      destruct (calculated_parsed req data secret (nth 1 (split_space a) "") Hurl)
        as [x Hx].
      congruence. }
  destruct (String.eqb (nth 2 (split_space a) "") _) eqn:Hsig; simpl;
    [apply String.eqb_eq in Hsig | apply String.eqb_neq in Hsig].
  2: { split; [| split].
    - intros (e & Hout & Hc). inversion Hout; subst. vm_compute in Hc. discriminate.
    - split; [intros [v Hv]; discriminate | intros (_ & _ & _ & Hl); congruence].
    - intros _. right. right. right. eexists. split; reflexivity. }
  split; [| split].
  - intros (e & Hout & Hc). discriminate.
  - split; [intros _; repeat split; auto; congruence | intros _; eauto].
  - intros _. left. eauto.
Qed.

(** C3, as the code has it: for a run that reaches the parsing of the
    authorization header, [authenticate] rejects with
    [AUTHORIZATION_HEADER_INVALID] exactly when splitting the header at
    single spaces gives fewer than three components or a first component
    other than [signature]; and when it gives at least three with the first
    one [signature], it rejects with [HMAC_ALGORITHM_INVALID] exactly when
    the second is not a supported algorithm. *)
Theorem authorization_header_parsing this apply now req data secret a d :
  reaches_authorization this apply now req secret a d ->
  (rejects_with (snd (authenticate this apply now req data)) "AUTHORIZATION_HEADER_INVALID"
   <-> ((length (split_space a) < 3)%nat \/ nth 0 (split_space a) "" <> "signature"))
  /\ ((3 <= length (split_space a))%nat ->
      nth 0 (split_space a) "" = "signature" ->
      (rejects_with (snd (authenticate this apply now req data)) "HMAC_ALGORITHM_INVALID"
       <-> nth 1 (split_space a) "" ∉ algorithms)).
Proof.
  intros [Hr Hfresh].
  rewrite (authenticate_from_timestamp this apply now req data secret a d Hr).
  rewrite Hfresh.
  destruct (length (split_space a) <? 3)%nat eqn:Hlen;
    [apply Nat.ltb_lt in Hlen | apply Nat.ltb_ge in Hlen].
  { split.
    - split; [auto |]. intros _. eexists. split; reflexivity.
    - intros Hl. lia. }
  destruct (String.eqb (nth 0 (split_space a) "") "signature") eqn:Hlab; simpl;
    [apply String.eqb_eq in Hlab | apply String.eqb_neq in Hlab].
  2: { split.
    - split; [auto |]. intros _. eexists. split; reflexivity.
    - intros _ Hl. contradiction. }
  case_bool_decide as Halg; simpl.
  2: { split.
    - split; [| intros [Hl | Hl]; [lia | contradiction]].
      intros (e & Hout & Hc). inversion Hout; subst. vm_compute in Hc. discriminate.
    - intros _ _. split; [auto |]. intros _. eexists. split; reflexivity. }
  split.
  - split; [| intros [Hl | Hl]; [lia | contradiction]].
    intros (e & Hout & Hc).
    decide_outcome Hout; inversion Hout; subst; vm_compute in Hc; discriminate.
  - intros _ _. split; [| contradiction].
    intros (e & Hout & Hc).
    decide_outcome Hout; inversion Hout; subst; vm_compute in Hc; discriminate.
Qed.

(** *** What the checks let through, on every platform *)

(** A request dated at or after now passes the timestamp check under any
    skew that is not negative, however far ahead its date. *)
Lemma future_date_not_stale this apply now req data secret a d t k :
  reaches_timestamp this apply req secret a d ->
  Date_parse d = Fin t ->
  prop (settings this) "permittedTimestampSkew" = VNum (Fin k) ->
  0 <= k -> now <= t ->
  reaches_authorization this apply now req secret a d.
Proof.
  intros Hr Ht Hk Hpos Hfuture. split; [exact Hr |].
  rewrite Ht, Hk. simpl. apply Z.ltb_ge. lia.
Qed.

(** A request that reaches the parsing of the authorization header with
    [signature], a supported algorithm and the right signature as its first
    three components is authenticated, whatever follows them. *)
Lemma extra_components_ignored this apply now req data secret a d algorithm signature extra :
  reaches_authorization this apply now req secret a d ->
  calculated req data secret algorithm = Some signature ->
  split_space a = "signature" :: algorithm :: signature :: extra ->
  algorithm ∈ algorithms ->
  snd (authenticate this apply now req data)
  = Some (Resolve (VObj [("apiKey", apiKey_of req); ("secret", secret);
                         ("signature", VStr signature)])).
Proof.
  intros [Hr Hfresh] Hcalc Hsplit Halg.
  rewrite (authenticate_from_timestamp this apply now req data secret a d Hr).
  rewrite Hfresh, Hsplit. cbn [length nth Nat.ltb Nat.leb].
  rewrite String.eqb_refl. cbn [negb].
  rewrite (bool_decide_eq_true_2 _ Halg). cbn [negb].
  rewrite Hcalc, String.eqb_refl. reflexivity.
Qed.

(** An error of the delegate other than [undefined] is what [authenticate]
    rejects with, whatever it is. *)
Lemma delegate_error_passed_on this apply now req data f e :
  secretForKey this = VFun f ->
  is_undefined (apiKey_of req) = false ->
  errors (apply f (apiKey_of req)) e ->
  is_undefined e = false ->
  snd (authenticate this apply now req data) = Some (Reject e).
Proof.
  intros Ef Hk Hb Hu.
  rewrite (authenticate_lookup_rejected this apply now req data e Hk);
    [by rewrite Hu | by eapply errors_settled].
Qed.

(** *** Further properties of a run *)

Lemma authenticate_without_authorization this apply now req data secret :
  is_undefined (apiKey_of req) = false ->
  settled (_getSecretForKey this apply (apiKey_of req)) = Some (Resolve secret) ->
  is_undefined secret = false ->
  headers req !! "authorization" = None ->
  snd (authenticate this apply now req data) = Some (Reject AUTHORIZATION_HEADER_MISSING).
Proof.
  intros Hk Hs Hd Ha. found_key Hk Ek. unfold_run; simpl_run.
  destruct (is_true data); simpl_run.
  all: rewrite Ek; simpl_run.
  all: rewrite Hk; simpl_run; rewrite Hs; simpl_run; rewrite Hd; simpl_run.
  all: rewrite (hasOwnProperty_None _ _ Ha); reflexivity.
Qed.

Lemma authenticate_without_date this apply now req data secret a :
  is_undefined (apiKey_of req) = false ->
  settled (_getSecretForKey this apply (apiKey_of req)) = Some (Resolve secret) ->
  is_undefined secret = false ->
  headers req !! "authorization" = Some a ->
  headers req !! "date" = None ->
  snd (authenticate this apply now req data) = Some (Reject DATE_HEADER_MISSING).
Proof.
  intros Hk Hs Hd Ha Hdate. found_key Hk Ek. unfold_run; simpl_run.
  destruct (is_true data); simpl_run.
  all: rewrite Ek; simpl_run.
  all: rewrite Hk; simpl_run; rewrite Hs; simpl_run; rewrite Hd; simpl_run.
  all: rewrite (hasOwnProperty_Some _ _ _ Ha); simpl_run.
  all: rewrite (hasOwnProperty_None _ _ Hdate); reflexivity.
Qed.

(** The codes of the outcomes of a run that reaches the timestamp check. *)
Lemma from_timestamp_codes this apply now req data secret a d c :
  reaches_timestamp this apply req secret a d ->
  rejects_with (snd (authenticate this apply now req data)) c ->
  c = "DATE_HEADER_INVALID" \/ c = "AUTHORIZATION_HEADER_INVALID"
  \/ c = "HMAC_ALGORITHM_INVALID" \/ c = "SIGNATURE_INVALID".
Proof.
  intros Hr (e & Hout & Hc).
  rewrite (authenticate_from_timestamp this apply now req data secret a d Hr) in Hout.
  decide_outcome Hout; inversion Hout; subst; vm_compute in Hc; inversion Hc; tauto.
Qed.

(** X6: once the delegate has produced a secret, [authenticate] rejects with
    [AUTHORIZATION_HEADER_MISSING] exactly when the request has no
    [authorization] header, and with [DATE_HEADER_MISSING] exactly when it
    has that one but no [date] header: the authorization header is asked for
    first. *)
Theorem mandatory_headers this apply now req data secret :
  is_undefined (apiKey_of req) = false ->
  settled (_getSecretForKey this apply (apiKey_of req)) = Some (Resolve secret) ->
  is_undefined secret = false ->
  (rejects_with (snd (authenticate this apply now req data)) "AUTHORIZATION_HEADER_MISSING"
   <-> headers req !! "authorization" = None)
  /\ (rejects_with (snd (authenticate this apply now req data)) "DATE_HEADER_MISSING"
      <-> (is_Some (headers req !! "authorization") /\ headers req !! "date" = None)).
Proof.
  intros Hk Hs Hd.
  destruct (headers req !! "authorization") as [a|] eqn:Ha.
  2: { rewrite (authenticate_without_authorization this apply now req data secret Hk Hs Hd Ha).
       split.
       - split; [done |]. intros _. eexists. split; reflexivity.
       - split; [| intros [[x Hx] _]; discriminate].
         intros (e & Hout & Hc). inversion Hout; subst. vm_compute in Hc. discriminate. }
  destruct (headers req !! "date") as [d|] eqn:Hdate.
  2: { rewrite (authenticate_without_date this apply now req data secret a Hk Hs Hd Ha Hdate).
       split.
       - split; [| discriminate].
         intros (e & Hout & Hc). inversion Hout; subst. vm_compute in Hc. discriminate.
       - split; [eauto |]. intros _. eexists. split; reflexivity. }
  assert (Hr : reaches_timestamp this apply req secret a d) by (by constructor).
  split.
  - split; [| discriminate]. intros Hrej.
    destruct (from_timestamp_codes _ _ _ _ _ _ _ _ _ Hr Hrej) as [E | [E | [E | E]]];
      discriminate E.
  - split; [| intros [_ E]; discriminate]. intros Hrej.
    destruct (from_timestamp_codes _ _ _ _ _ _ _ _ _ Hr Hrej) as [E | [E | [E | E]]];
      discriminate E.
Qed.

(** What a resolved run went through. *)
Lemma authenticate_resolved this apply now req data v :
  snd (authenticate this apply now req data) = Some (Resolve v) ->
  exists secret a d,
    reaches_authorization this apply now req secret a d
    /\ (3 <= length (split_space a))%nat
    /\ nth 0 (split_space a) "" = "signature"
    /\ nth 1 (split_space a) "" ∈ algorithms
    /\ calculated req data secret (nth 1 (split_space a) "")
       = Some (nth 2 (split_space a) "")
    /\ v = VObj [("apiKey", apiKey_of req); ("secret", secret);
                 ("signature", VStr (nth 2 (split_space a) ""))].
Proof.
  intros Hout.
  assert (Hk : is_undefined (apiKey_of req) = false).
  { unfold apiKey_of. destruct (_getApiKey req) as [k|] eqn:Ek.
    - destruct k; try reflexivity.
      destruct (authenticate_without_key this apply now req data Ek) as [Ho _]. congruence.
    - destruct (authenticate_key_raises this apply now req data Ek) as [Ho _]. congruence. }
  destruct (settled (_getSecretForKey this apply (apiKey_of req))) as [[secret | e]|] eqn:Hs.
  3: { rewrite (authenticate_lookup_pending this apply now req data Hk Hs) in Hout.
       discriminate. }
  2: { rewrite (authenticate_lookup_rejected this apply now req data e Hk Hs) in Hout.
       discriminate. }
  destruct (is_undefined secret) eqn:Hd.
  { rewrite (authenticate_secret_undefined this apply now req data secret Hk Hs Hd) in Hout.
    discriminate. }
  destruct (headers req !! "authorization") as [a|] eqn:Ha.
  2: { rewrite (authenticate_without_authorization this apply now req data secret Hk Hs Hd Ha)
         in Hout. discriminate. }
  destruct (headers req !! "date") as [d|] eqn:Hdate.
  2: { rewrite (authenticate_without_date this apply now req data secret a Hk Hs Hd Ha Hdate)
         in Hout. discriminate. }
  assert (Hr : reaches_timestamp this apply req secret a d) by (by constructor).
  rewrite (authenticate_from_timestamp this apply now req data secret a d Hr) in Hout.
  exists secret, a, d.
  destruct (num_gt _ _) eqn:Hfresh; [discriminate |].
  destruct (length (split_space a) <? 3)%nat eqn:Hlen; [discriminate |].
  destruct (String.eqb (nth 0 (split_space a) "") "signature") eqn:Hlab; [| discriminate].
  simpl in Hout.
  destruct (bool_decide (nth 1 (split_space a) "" ∈ algorithms)) eqn:Halg; [| discriminate].
  simpl in Hout.
  destruct (calculated req data secret (nth 1 (split_space a) ""))
    as [calculatedSignature|] eqn:Hcalc; [| discriminate].
  destruct (String.eqb (nth 2 (split_space a) "") _) eqn:Hsig; [| discriminate].
  simpl in Hout.
  split; [by split |].
  split; [by apply Nat.ltb_ge |].
  split; [by apply String.eqb_eq |].
  split; [by apply bool_decide_eq_true in Halg |].
  split; [apply String.eqb_eq in Hsig; by rewrite Hsig |].
  congruence.
Qed.

(** X7: [authenticate] resolves exactly when an API key is found, the
    delegate produces a defined secret for it, both mandatory headers are
    present, the request is not stale, the authorization header has at least
    three components of which the first is [signature] and the second a
    supported algorithm, and the third is the signature recomputed with that
    secret and algorithm. *)
Theorem authenticate_resolves_iff this apply now req data :
  (exists v, snd (authenticate this apply now req data) = Some (Resolve v))
  <-> exists secret a d,
        reaches_authorization this apply now req secret a d
        /\ (3 <= length (split_space a))%nat
        /\ nth 0 (split_space a) "" = "signature"
        /\ nth 1 (split_space a) "" ∈ algorithms
        /\ calculated req data secret (nth 1 (split_space a) "")
           = Some (nth 2 (split_space a) "").
Proof.
  split.
  - intros [v Hout].
    destruct (authenticate_resolved this apply now req data v Hout)
      as (secret & a & d & Hr & Hlen & Hlab & Halg & Hsig & _).
    exists secret, a, d. auto.
  - intros (secret & a & d & [Hr Hfresh] & Hlen & Hlab & Halg & Hsig).
    rewrite (authenticate_from_timestamp this apply now req data secret a d Hr).
    rewrite Hfresh.
    apply Nat.ltb_ge in Hlen. rewrite Hlen.
    apply String.eqb_eq in Hlab. rewrite Hlab. simpl.
    rewrite (bool_decide_eq_true_2 _ Halg). simpl.
    rewrite Hsig, String.eqb_refl. simpl. eauto.
Qed.


(** X8: when [authenticate] resolves, the value it resolves with is the
    object of the API key, the secret and the presented signature, and the
    request carries the same three values as [apiKey], [secret] and
    [signature], the presented signature as [signatureExpected] too, and
    [authenticated = true]; the delegate was called once, with that key. *)
Theorem resolved_request_annotated this apply now req data v :
  snd (authenticate this apply now req data) = Some (Resolve v) ->
  exists apiKey secret signature,
    v = VObj [("apiKey", apiKey); ("secret", secret); ("signature", VStr signature)]
    /\ props (request (fst (authenticate this apply now req data))) !! "apiKey" = Some apiKey
    /\ props (request (fst (authenticate this apply now req data))) !! "secret" = Some secret
    /\ props (request (fst (authenticate this apply now req data))) !! "signature"
       = Some (VStr signature)
    /\ props (request (fst (authenticate this apply now req data))) !! "signatureExpected"
       = Some (VStr signature)
    /\ props (request (fst (authenticate this apply now req data))) !! "authenticated"
       = Some (VBool true)
    /\ invoked (fst (authenticate this apply now req data)) = [apiKey].
Proof.
  intros Hout.
  assert (Hf : exists f, secretForKey this = VFun f).
  { destruct (authenticate_resolved this apply now req data v Hout)
      as (secret & a & d & [[_ Hs _ _ _] _] & _).
    destruct (secretForKey this) eqn:Ef; eauto.
    all: unfold _getSecretForKey in Hs; rewrite Ef in Hs; discriminate. }
  destruct Hf as [f Ef]. revert Hout.
  run; intros Hout; try discriminate Hout.
  all: inversion Hout; subst; clear Hout.
  all: match goal with
       | Hm : negb (String.eqb _ _) = false |- _ =>
           apply negb_false_iff, String.eqb_eq in Hm; rewrite <- Hm
       end.
  all: do 3 eexists; split; [reflexivity |].
  all: rewrite Ef; repeat split; lookup_props.
Qed.

Lemma num_gt_later now now' t n :
  now <= now' ->
  num_gt (num_sub (Fin now) t) n = true -> num_gt (num_sub (Fin now') t) n = true.
Proof.
  intros Hle. destruct t as [|t], n as [|k]; simpl; try discriminate.
  rewrite !Z.ltb_lt. lia.
Qed.

(** X9: staleness is for good: a request that reaches the timestamp check
    and is rejected with [DATE_HEADER_INVALID] at one time is rejected with
    it at every later time, whatever body it is then presented with. *)
Theorem stale_stays_stale this apply now now' req data data' secret a d :
  reaches_timestamp this apply req secret a d ->
  now <= now' ->
  rejects_with (snd (authenticate this apply now req data)) "DATE_HEADER_INVALID" ->
  rejects_with (snd (authenticate this apply now' req data')) "DATE_HEADER_INVALID".
Proof.
  intros Hr Hle (e & Hout & Hc).
  rewrite (authenticate_from_timestamp this apply now req data secret a d Hr) in Hout.
  rewrite (authenticate_from_timestamp this apply now' req data' secret a d Hr).
  destruct (num_gt (num_sub (Fin now) _) _) eqn:Hstale.
  - rewrite (num_gt_later now now' _ _ Hle Hstale). eexists. split; reflexivity.
  - exfalso.
    decide_outcome Hout; inversion Hout; subst; vm_compute in Hc; discriminate Hc.
Qed.

(** *** What a run reads *)

Lemma getApiKey_ext req1 req2 :
  headers req1 = headers req2 -> query req1 = query req2 -> url req1 = url req2 ->
  _getApiKey req1 = _getApiKey req2.
Proof.
  intros Hh Hq Hu. unfold _getApiKey, header. by rewrite Hh, Hq, Hu.
Qed.

Lemma header_ext req1 req2 k : headers req1 = headers req2 -> header req1 k = header req2 k.
Proof. intros Hh. unfold header. by rewrite Hh. Qed.

(** X10: unless it is asked to read the body itself, [authenticate] decides
    on the method, URL, headers and query of the request and on [data]
    alone: the properties the request already carries (an [authenticated] or
    [secret] left by anyone, a [rawBody]) and the content of its stream have
    no influence on the outcome. *)
Theorem outcome_ignores_annotations this apply now req1 req2 data :
  is_true data = false ->
  method req1 = method req2 -> url req1 = url req2 ->
  headers req1 = headers req2 -> query req1 = query req2 ->
  snd (authenticate this apply now req1 data) = snd (authenticate this apply now req2 data).
Proof.
  intros Hdata Hm Hu Hh Hq.
  pose proof (getApiKey_ext req1 req2 Hh Hq Hu) as Ek.
  unfold_run; simpl_run. rewrite Hdata; simpl_run.
  rewrite Ek.
  repeat (split_run;
          rewrite ?(header_ext req1 req2 _ Hh), ?Hh, ?Hu, ?Hm).
  all: reflexivity.
Qed.

Lemma authenticate_sentinel this apply now req :
  snd (authenticate this apply now req (VBool true))
  = snd (authenticate this apply now req (_getRawBody req)).
Proof.
  destruct (is_true (_getRawBody req)) eqn:Hraw.
  { destruct (_getRawBody req) as [| |[]| | | |]; try discriminate. reflexivity. }
  unfold_run; simpl_run. rewrite Hraw. cbn [is_true]. simpl_run.
  repeat split_run. all: reflexivity.
Qed.


(** X12: [request.secret] is assigned only the defined secret the delegate
    produced, and once assigned it stays: a run that got a secret leaves it
    on the request, with the API key, however the run ends, a rejection for
    a wrong signature included. *)
Theorem secret_annotation this apply now req data :
  (forall v, ("secret", v) ∈ writes (fst (authenticate this apply now req data)) ->
     settled (_getSecretForKey this apply (apiKey_of req)) = Some (Resolve v)
     /\ is_undefined v = false)
  /\ (forall secret,
        is_undefined (apiKey_of req) = false ->
        settled (_getSecretForKey this apply (apiKey_of req)) = Some (Resolve secret) ->
        is_undefined secret = false ->
        props (request (fst (authenticate this apply now req data))) !! "secret" = Some secret
        /\ props (request (fst (authenticate this apply now req data))) !! "apiKey"
           = Some (apiKey_of req)).
Proof.
  run.
  all: split; [intros v Hin; in_writes Hin; auto |].
  all: intros s0 Hk0 Hs0 Hd0; try discriminate.
  all: inversion Hs0; subst; try congruence; split; lookup_props.
Qed.

(** *** The authorization header of the protocol *)

Lemma split_space_spaceless s : spaceless s = true -> split_space s = [s].
Proof.
  induction s as [|c s IH]; simpl; [done |].
  unfold spaceless. simpl. intros Hs. apply andb_true_iff in Hs as [Hc Hs].
  apply negb_true_iff in Hc. rewrite Hc. by rewrite (IH Hs).
Qed.

Lemma split_space_cons s rest :
  spaceless s = true -> split_space (s +:+ " " +:+ rest) = s :: split_space rest.
Proof.
  induction s as [|c s IH]; simpl; [done |].
  unfold spaceless. simpl. intros Hs. apply andb_true_iff in Hs as [Hc Hs].
  apply negb_true_iff in Hc. rewrite Hc. by rewrite (IH Hs).
Qed.

Lemma split_authorization_header algorithm signature :
  spaceless algorithm = true -> spaceless signature = true ->
  split_space (authorization_header algorithm signature)
  = ["signature"; algorithm; signature].
Proof.
  intros Ha Hs. unfold authorization_header.
  change ("signature " +:+ algorithm +:+ " " +:+ signature)
    with ("signature" +:+ " " +:+ algorithm +:+ " " +:+ signature).
  rewrite (split_space_cons "signature") by reflexivity.
  rewrite (split_space_cons algorithm) by exact Ha.
  by rewrite (split_space_spaceless signature).
Qed.

(** X13: the header [signature <algorithm> <signature>] parses back into
    its parts when neither contains a space, and a request that reaches the
    parsing of the authorization header with a supported algorithm and the
    recomputed signature in that form is authenticated. *)
Theorem signed_header_accepted this apply now req data secret d algorithm signature :
  calculated req data secret algorithm = Some signature ->
  reaches_authorization this apply now req secret
    (authorization_header algorithm signature) d ->
  algorithm ∈ algorithms ->
  spaceless algorithm = true ->
  spaceless signature = true ->
  split_space (authorization_header algorithm signature)
  = ["signature"; algorithm; signature]
  /\ snd (authenticate this apply now req data)
     = Some (Resolve (VObj [("apiKey", apiKey_of req); ("secret", secret);
                            ("signature", VStr signature)])).
Proof.
  intros Hcalc [Hr Hfresh] Halg Hsa Hss.
  pose proof (split_authorization_header _ _ Hsa Hss) as Hsplit.
  split; [exact Hsplit |].
  rewrite (authenticate_from_timestamp this apply now req data secret _ d Hr).
  rewrite Hfresh, Hsplit. cbn [length nth Nat.ltb Nat.leb].
  rewrite String.eqb_refl. cbn [negb].
  rewrite (bool_decide_eq_true_2 _ Halg). cbn [negb].
  rewrite Hcalc, String.eqb_refl. reflexivity.
Qed.

End Runs.

(** ** The properties at work, and where the specification departs *)

(** C1, at a request signed ten minutes ago: it reaches the timestamp check
    and is rejected as stale. *)
Lemma timestamp_freshness_stale :
  reaches_timestamp (H := example_platform) (example_server 0) example_apply
    (signed_request "Thu, 01 Jan 1970 00:00:00 GMT") (VStr "SECRET")
    ("signature sha256 " +:+ example_signature) "Thu, 01 Jan 1970 00:00:00 GMT"
  /\ (rejects_with
        (snd (authenticate (H := example_platform) (example_server 0) example_apply
                example_now (signed_request "Thu, 01 Jan 1970 00:00:00 GMT") (VStr "")))
        "DATE_HEADER_INVALID"
      <-> 60000 < example_now - 0).
Proof.
  assert (Hr : reaches_timestamp (H := example_platform) (example_server 0) example_apply
                 (signed_request "Thu, 01 Jan 1970 00:00:00 GMT") (VStr "SECRET")
                 ("signature sha256 " +:+ example_signature)
                 "Thu, 01 Jan 1970 00:00:00 GMT")
    by (constructor; vm_compute; reflexivity).
  split; [exact Hr |].
  apply (timestamp_freshness (H := example_platform) (example_server 0) example_apply
           example_now (signed_request "Thu, 01 Jan 1970 00:00:00 GMT") (VStr "")
           (VStr "SECRET") ("signature sha256 " +:+ example_signature)
           "Thu, 01 Jan 1970 00:00:00 GMT" 0 60000 Hr);
    vm_compute; reflexivity.
Defined.

(** C1, as the specification words it, fails: a correctly signed request dated ten minutes
    in the future is further from now than the skew window, and is
    authenticated. *)
Lemma future_date_accepted :
  spec_skew_exceeded example_now 1200000 60000
  /\ Date_parse (Platform := example_platform) "Thu, 01 Jan 1970 00:20:00 GMT" = Fin 1200000
  /\ prop (settings (example_server 0)) "permittedTimestampSkew" = VNum (Fin 60000)
  /\ snd (authenticate (H := example_platform) (example_server 0) example_apply
            example_now (signed_request "Thu, 01 Jan 1970 00:20:00 GMT") (VStr ""))
     = Some (Resolve (VObj [("apiKey", VStr "API_KEY"); ("secret", VStr "SECRET");
                            ("signature", VStr example_signature)])).
Proof.
  split; [unfold spec_skew_exceeded, example_now; lia |].
  vm_compute. repeat split; reflexivity.
Qed.

(** C2, at the promise-style delegate that knows no key: the request is
    rejected as unrecognized. *)
Lemma secret_resolution_unrecognized :
  rejects_with
    (snd (authenticate (H := example_platform) (example_server 3) example_apply
            example_now (signed_request "Thu, 01 Jan 1970 00:10:00 GMT") (VStr "")))
    "API_KEY_UNRECOGNIZED".
Proof.
  destruct (secret_resolution_outcomes (H := example_platform) (example_server 3)
              example_apply example_now
              (signed_request "Thu, 01 Jan 1970 00:10:00 GMT") (VStr "") 3
              eq_refl eq_refl) as [Hfulfils _].
  apply Hfulfils. constructor.
Defined.

(** C2, as the specification words it, fails: a delegate that errors with
    a value of its own has that value handed on, not an error of code
    [INTERNAL_ERROR_SECRET_DISCOVERY]: the README's delegate calls back with
    an error object for an unknown key, and the request is rejected with
    that object, which has no code; a delegate whose promise is rejected
    with a bare string has the request rejected with that string. *)
Lemma delegate_error_handed_on :
  errors (readme_secretForKey (VStr "UNKNOWN")) (VObj [("message", VStr "API key not found")])
  /\ snd (authenticate (H := example_platform) (example_server 1) example_apply
            example_now unknown_request (VStr ""))
     = Some (Reject (VObj [("message", VStr "API key not found")]))
  /\ code_of (VObj [("message", VStr "API key not found")]) = None
  /\ errors (failing_secretForKey (VStr "API_KEY")) (VStr "database unavailable")
  /\ snd (authenticate (H := example_platform) (example_server 2) example_apply
            example_now (signed_request "Thu, 01 Jan 1970 00:10:00 GMT") (VStr ""))
     = Some (Reject (VStr "database unavailable"))
  /\ code_of (VStr "database unavailable") = None.
Proof.
  split; [by constructor |].
  split; [vm_compute; reflexivity |].
  split; [reflexivity |].
  split; [by constructor |].
  split; vm_compute; reflexivity.
Qed.

(** C3, at a request with the label [Signature]: it reaches the parsing of
    the authorization header and is rejected there. *)
Lemma authorization_header_wrong_label :
  reaches_authorization (H := example_platform) (example_server 0) example_apply example_now
    (example_request "API_KEY" "Thu, 01 Jan 1970 00:10:00 GMT" "Signature sha256 abc")
    (VStr "SECRET") "Signature sha256 abc" "Thu, 01 Jan 1970 00:10:00 GMT"
  /\ rejects_with
       (snd (authenticate (H := example_platform) (example_server 0) example_apply
               example_now
               (example_request "API_KEY" "Thu, 01 Jan 1970 00:10:00 GMT"
                  "Signature sha256 abc") (VStr "")))
       "AUTHORIZATION_HEADER_INVALID".
Proof.
  assert (Hr : reaches_authorization (H := example_platform) (example_server 0)
                 example_apply example_now
                 (example_request "API_KEY" "Thu, 01 Jan 1970 00:10:00 GMT"
                    "Signature sha256 abc")
                 (VStr "SECRET") "Signature sha256 abc" "Thu, 01 Jan 1970 00:10:00 GMT")
    by (split; [constructor |]; vm_compute; reflexivity).
  split; [exact Hr |].
  destruct (authorization_header_parsing (H := example_platform) (example_server 0)
              example_apply example_now
              (example_request "API_KEY" "Thu, 01 Jan 1970 00:10:00 GMT"
                 "Signature sha256 abc")
              (VStr "") (VStr "SECRET") "Signature sha256 abc"
              "Thu, 01 Jan 1970 00:10:00 GMT" Hr) as [[_ Hinvalid] _].
  apply Hinvalid. right. vm_compute. discriminate.
Defined.

(** C3, as the specification words it, fails: a header of four whitespace-separated tokens
    is not of the specification's form, and the request is authenticated on
    its first three. *)
Lemma four_tokens_accepted :
  spec_tokens ("signature sha256 " +:+ example_signature +:+ " extra")
  = ["signature"; "sha256"; example_signature; "extra"]
  /\ ~ spec_well_formed ("signature sha256 " +:+ example_signature +:+ " extra")
  /\ snd (authenticate (H := example_platform) (example_server 0) example_apply
            example_now padded_request (VStr ""))
     = Some (Resolve (VObj [("apiKey", VStr "API_KEY"); ("secret", VStr "SECRET");
                            ("signature", VStr example_signature)])).
Proof.
  split; [reflexivity |].
  split; [| vm_compute; reflexivity].
  intros (algorithm & signature & Htokens). vm_compute in Htokens. discriminate.
Qed.

(** C5, as the specification words it, fails: the bare string a failing delegate rejects
    with is what [authenticate] rejects with, and the rejection for want of
    a delegate has no code. *)
Lemma rejections_without_code :
  snd (authenticate (H := example_platform) (example_server 2) example_apply
         example_now (signed_request "Thu, 01 Jan 1970 00:10:00 GMT") (VStr ""))
  = Some (Reject (VStr "database unavailable"))
  /\ code_of (VStr "database unavailable") = None
  /\ snd (authenticate (H := example_platform) (constructor None) example_apply
            example_now (signed_request "Thu, 01 Jan 1970 00:10:00 GMT") (VStr ""))
     = Some (Reject missing_delegate_error)
  /\ code_of missing_delegate_error = None.
Proof. repeat split; vm_compute; reflexivity. Qed.

(** C6, as the specification words it, fails: called with the sentinel [true],
    [authenticate] gives the request a [body], which it did not have; and
    when the presented signature is wrong, both signature properties hold
    the recomputed one and the presented one is recorded nowhere. *)
Lemma body_is_written :
  props streamed_request !! "body" = None
  /\ props (request (fst (authenticate (H := example_platform) (example_server 0)
                            example_apply example_now streamed_request (VBool true))))
     !! "body" = Some (VStr "abcd")
  /\ props (request (fst (authenticate (H := example_platform) (example_server 0)
                            example_apply example_now streamed_request (VBool true))))
     !! "signature" = Some (VStr "sha256/SECRET/POST|/items/|abcd")
  /\ props (request (fst (authenticate (H := example_platform) (example_server 0)
                            example_apply example_now streamed_request (VBool true))))
     !! "signatureExpected" = Some (VStr "sha256/SECRET/POST|/items/|abcd")
  /\ nth 2 (split_space (header streamed_request "authorization")) "" = "bad".
Proof. repeat split; vm_compute; reflexivity. Qed.

(** C10, at a request whose date header is [yesterday]: it is
    authenticated. *)
Lemma invalid_date_authenticated :
  Date_parse (Platform := example_platform) "yesterday" = NaN
  /\ exists v,
       snd (authenticate (H := example_platform) (example_server 0) example_apply
              example_now (signed_request "yesterday") (VStr ""))
       = Some (Resolve v).
Proof.
  split; [reflexivity |].
  assert (Hr : reaches_timestamp (H := example_platform) (example_server 0) example_apply
                 (signed_request "yesterday") (VStr "SECRET")
                 ("signature sha256 " +:+ example_signature) "yesterday")
    by (constructor; vm_compute; reflexivity).
  destruct (invalid_date_passes (H := example_platform) (example_server 0) example_apply
              example_now (signed_request "yesterday") (VStr "") (VStr "SECRET")
              ("signature sha256 " +:+ example_signature) "yesterday" Hr eq_refl)
    as (_ & [_ Hresolved] & _).
  apply Hresolved.
  split; [vm_compute; lia |].
  split; [vm_compute; reflexivity |].
  split; [| vm_compute; reflexivity].
  apply (bool_decide_unpack _). vm_compute. exact I.
Defined.

(** C5, at the delegate that never answers: the promise of [authenticate]
    does not stay pending. *)
Lemma stalled_delegate_rejected :
  is_Some (snd (authenticate (H := example_platform) (example_server 4) example_apply
                  example_now (signed_request "Thu, 01 Jan 1970 00:10:00 GMT") (VStr ""))).
Proof.
  destruct (rejections_structured (H := example_platform) (example_server 4) example_apply
              example_now (signed_request "Thu, 01 Jan 1970 00:10:00 GMT") (VStr ""))
    as (_ & Hsettles & _).
  apply Hsettles; [| vm_compute; eauto].
  intros f Ef. inversion Ef; subst f.
  vm_compute. constructor.
Defined.

(** C7, at the racing delegate: the promise is settled, and it is by the
    callback, which came first. *)
Lemma racing_delegate_settled :
  settled (_getSecretForKey (H := example_platform) (example_server 5) example_apply
             (VStr "API_KEY"))
  = Some (Resolve (VStr "SECRET")).
Proof.
  destruct (getSecretForKey_settles_once (H := example_platform) (example_server 5)
              example_apply (VStr "API_KEY")) as (_ & _ & _ & _ & Hfirst & _).
  rewrite (Hfirst 5%nat eq_refl). reflexivity.
Defined.

(** C8, at a request without an [x-api-key] header and without a [query]
    whose target [url.parse] throws on: no source gives a key, and the
    promise is not rejected with [API_KEY_MISSING]: it stays pending, the
    exception uncaught. *)
Lemma api_key_unparsable_target :
  headers unparsable_request !! "x-api-key" = None
  /\ query unparsable_request = None
  /\ url_parse (Platform := example_platform) (url unparsable_request) = None
  /\ snd (authenticate (H := example_platform) (example_server 0) example_apply
            example_now unparsable_request (VStr "")) = None
  /\ uncaught (H := example_platform) (example_server 0) example_apply
       example_now unparsable_request (VStr "") = true
  /\ invoked (fst (authenticate (H := example_platform) (example_server 0) example_apply
                     example_now unparsable_request (VStr ""))) = [].
Proof.
  split; [reflexivity |]. split; [reflexivity |]. split; [reflexivity |].
  destruct (api_key_extraction (H := example_platform) (example_server 0) example_apply
              example_now unparsable_request (VStr ""))
    as (_ & _ & _ & _ & Hthrows).
  apply Hthrows; reflexivity.
Defined.

(** * Further properties *)

(** ** The constructor and [log] *)

Lemma lookup_defaulted_other k ty d s k' :
  k <> k' -> defaulted k ty d s !! k' = s !! k'.
Proof.
  intros Hne. unfold defaulted.
  destruct (_ || _); [by rewrite lookup_insert_ne | reflexivity].
Qed.

Lemma lookup_verbose_defaulted_other s k' :
  "verbose" <> k' -> verbose_defaulted s !! k' = s !! k'.
Proof.
  intros Hne. unfold verbose_defaulted.
  destruct (negb _); [by rewrite lookup_insert_ne | reflexivity].
Qed.

Lemma lookup_verbose_defaulted s :
  verbose_defaulted s !! "verbose"
  = Some (match s !! "verbose" with Some v => v | None => VBool false end).
Proof.
  unfold verbose_defaulted.
  destruct (s !! "verbose") as [v|] eqn:E.
  - by rewrite (hasOwnProperty_Some _ _ _ E).
  - rewrite (hasOwnProperty_None _ _ E). simpl. by rewrite lookup_insert_eq.
Qed.

Lemma lookup_defaulted k ty d s :
  defaulted k ty d s !! k
  = Some (match s !! k with
          | Some v => if String.eqb (typeof v) ty then v else d
          | None => d
          end).
Proof.
  unfold defaulted, prop.
  destruct (s !! k) as [v|] eqn:E.
  - rewrite (hasOwnProperty_Some _ _ _ E). simpl.
    destruct (String.eqb (typeof v) ty); simpl; [exact E | by rewrite lookup_insert_eq].
  - rewrite (hasOwnProperty_None _ _ E). simpl. by rewrite lookup_insert_eq.
Qed.

Lemma defaulted_id k ty d s v :
  s !! k = Some v -> String.eqb (typeof v) ty = true -> defaulted k ty d s = s.
Proof.
  intros E Ht. unfold defaulted, prop.
  rewrite (hasOwnProperty_Some _ _ _ E), E. simpl. by rewrite Ht.
Qed.

Lemma verbose_defaulted_id s v : s !! "verbose" = Some v -> verbose_defaulted s = s.
Proof.
  intros E. unfold verbose_defaulted. by rewrite (hasOwnProperty_Some _ _ _ E).
Qed.

Lemma constructor_secretForKey s :
  secretForKey (constructor s) = installed (settings (constructor s)).
Proof. reflexivity. Qed.

Lemma constructor_eta s :
  constructor s
  = {| secretForKey := installed (settings (constructor s));
       settings := settings (constructor s) |}.
Proof. reflexivity. Qed.

Lemma not_defaulted_option k :
  k ∉ defaulted_options ->
  "verbose" <> k /\ "secretForKeyTimeout" <> k /\ "permittedTimestampSkew" <> k
  /\ "bodySizeLimit" <> k.
Proof.
  unfold defaulted_options. rewrite !not_elem_of_cons. intros Hk.
  repeat split; intros <-; tauto.
Qed.

Lemma constructor_lookup_other s k :
  k ∉ defaulted_options -> settings (constructor s) !! k = supplied s k.
Proof.
  intros Hk. apply not_defaulted_option in Hk as (Hv & Ht & Hs & Hb).
  rewrite constructor_settings, supplied_lookup.
  rewrite !lookup_defaulted_other by assumption.
  by rewrite lookup_verbose_defaulted_other.
Qed.

Lemma secretForKey_not_defaulted : "secretForKey" ∉ defaulted_options.
Proof.
  unfold defaulted_options. intros Hin.
  repeat (apply elem_of_cons in Hin as [Hin | Hin]; [discriminate Hin |]).
  by apply elem_of_nil in Hin.
Qed.

Lemma constructor_verbose s :
  settings (constructor s) !! "verbose"
  = Some (match supplied s "verbose" with Some v => v | None => VBool false end).
Proof.
  rewrite constructor_settings, supplied_lookup.
  rewrite !lookup_defaulted_other by done. apply lookup_verbose_defaulted.
Qed.

Lemma constructor_delegate s :
  secretForKey (constructor s)
  = match supplied s "secretForKey" with
    | Some (VFun f) => VFun f
    | _ => VUndefined
    end.
Proof.
  rewrite constructor_secretForKey. unfold installed, prop.
  rewrite constructor_lookup_other by apply secretForKey_not_defaulted.
  destruct (supplied s "secretForKey") as [[]|]; reflexivity.
Qed.

(** X1: whatever object the constructor is given, or none, the instance
    keeps [verbose] as supplied, whatever its type, and [false] when it is
    absent; [bodySizeLimit] as supplied when it is a string and ['5mb']
    otherwise; every property other than the four defaulted options as
    supplied; and its delegate is the supplied [secretForKey] when that is a
    function, and [undefined] otherwise. *)
Theorem constructor_keeps_the_rest (s : option (gmap string value)) :
  settings (constructor s) !! "verbose"
  = Some (match supplied s "verbose" with Some v => v | None => VBool false end)
  /\ settings (constructor s) !! "bodySizeLimit"
     = Some (match supplied s "bodySizeLimit" with
             | Some (VStr limit) => VStr limit
             | _ => VStr "5mb"
             end)
  /\ (forall k, k ∉ defaulted_options -> settings (constructor s) !! k = supplied s k)
  /\ secretForKey (constructor s)
     = match supplied s "secretForKey" with
       | Some (VFun f) => VFun f
       | _ => VUndefined
       end.
Proof.
  split; [| split; [| split]].
  - apply constructor_verbose.
  - rewrite constructor_settings, supplied_lookup.
    rewrite lookup_defaulted. rewrite !lookup_defaulted_other by done.
    rewrite lookup_verbose_defaulted_other by done.
    destruct (_ !! "bodySizeLimit") as [[]|]; reflexivity.
  - intros k Hk. by apply constructor_lookup_other.
  - apply constructor_delegate.
Qed.

Lemma constructor_typed s :
  (exists v, settings (constructor s) !! "verbose" = Some v)
  /\ (exists n, settings (constructor s) !! "secretForKeyTimeout" = Some (VNum n))
  /\ (exists n, settings (constructor s) !! "permittedTimestampSkew" = Some (VNum n))
  /\ (exists l, settings (constructor s) !! "bodySizeLimit" = Some (VStr l)).
Proof.
  rewrite constructor_settings.
  set (s0 := match s with None => ∅ | Some s1 => s1 end). clearbody s0.
  split; [| split; [| split]].
  - rewrite !lookup_defaulted_other by done. rewrite lookup_verbose_defaulted. eauto.
  - rewrite !lookup_defaulted_other by done. rewrite lookup_defaulted.
    destruct (_ !! "secretForKeyTimeout") as [[]|]; simpl; eauto.
  - rewrite lookup_defaulted_other by done. rewrite lookup_defaulted.
    destruct (_ !! "permittedTimestampSkew") as [[]|]; simpl; eauto.
  - rewrite lookup_defaulted.
    destruct (_ !! "bodySizeLimit") as [[]|]; simpl; eauto.
Qed.

(** X2: the settings an instance keeps are settings the constructor leaves
    as they are: constructing an instance from them gives the same instance
    again, so the object the constructor has filled in can be used for the
    next instance without a change of behaviour. *)
Theorem constructor_idempotent (s : option (gmap string value)) :
  constructor (Some (settings (constructor s))) = constructor s.
Proof.
  destruct (constructor_typed s) as ((v & Hv) & (n & Hn) & (m & Hm) & (l & Hl)).
  assert (Hst : settings (constructor (Some (settings (constructor s))))
                = settings (constructor s)).
  { rewrite (constructor_settings (Some _)).
    rewrite (verbose_defaulted_id _ _ Hv).
    rewrite (defaulted_id "secretForKeyTimeout" "number" _ _ _ Hn eq_refl).
    rewrite (defaulted_id "permittedTimestampSkew" "number" _ _ _ Hm eq_refl).
    by rewrite (defaulted_id "bodySizeLimit" "string" _ _ _ Hl eq_refl). }
  rewrite (constructor_eta (Some (settings (constructor s)))), Hst.
  symmetry. apply constructor_eta.
Qed.

(** X3: an instance logs exactly when the [verbose] it was constructed with
    is truthy, whatever its type: nothing is printed without settings or
    without [verbose], and what is printed is the tag [SimpleHMACAuth]
    followed by the messages. *)
Theorem log_when_verbose (s : option (gmap string value)) (messages : list value) :
  log (constructor s) messages
  = match supplied s "verbose" with
    | Some v => if truthy v then Some (VStr "SimpleHMACAuth" :: messages) else None
    | None => None
    end.
Proof.
  unfold log, prop. rewrite constructor_verbose.
  destruct (supplied s "verbose") as [v|]; simpl; [| reflexivity].
  by destruct (truthy v).
Qed.

(** ** The timer of [_getSecretForKey] *)

Section TimerFacts.
Context `{Platform}.
Implicit Types (p : Lookup) (this : Server) (apiKey : value).


Lemma cleared_step this apiKey e p :
  timer p = Cleared -> timer (step this apiKey p e) = Cleared.
Proof.
  intros Ht. destruct e; simpl.
  - rewrite callback_settles. simpl. by rewrite Ht.
  - destruct (listening p); simpl; by rewrite Ht.
  - destruct (listening p); simpl; by rewrite Ht.
  - unfold timer_callback. by rewrite Ht.
Qed.

Lemma cleared_steps this apiKey evs p :
  timer p = Cleared -> timer (foldl (step this apiKey) p evs) = Cleared.
Proof.
  revert p. induction evs as [|e evs IH]; intros p Ht; simpl; [done |].
  by apply IH, cleared_step.
Qed.

Lemma cleared_callbacks (calls : list (value * value)) p :
  timer p = Cleared ->
  timer (foldl (fun p '(error, secret) => callback error secret p) p calls) = Cleared.
Proof.
  revert p. induction calls as [|[e s] calls IH]; intros p Ht; simpl; [done |].
  apply IH. rewrite callback_settles. simpl. by rewrite Ht.
Qed.

Lemma fired_step this apiKey e p :
  timer p = Fired -> timer (step this apiKey p e) = Fired.
Proof.
  intros Ht. destruct e; simpl.
  - rewrite callback_settles. simpl. by rewrite Ht.
  - destruct (listening p); simpl; by rewrite Ht.
  - destruct (listening p); simpl; by rewrite Ht.
  - unfold timer_callback. by rewrite Ht.
Qed.

Lemma fired_steps this apiKey evs p :
  timer p = Fired -> timer (foldl (step this apiKey) p evs) = Fired.
Proof.
  revert p. induction evs as [|e evs IH]; intros p Ht; simpl; [done |].
  by apply IH, fired_step.
Qed.

Lemma timer_of_call_delegate this calls c rest :
  timer (call_delegate this {| during := calls; completed := c; afterwards := rest |})
  = timer (foldl (fun p '(error, secret) => callback error secret p)
             (setTimeout (prop (settings this) "secretForKeyTimeout") pending) calls).
Proof. unfold call_delegate. simpl. by destruct c as [[]|]. Qed.

Lemma attempts_step this apiKey e p :
  exists more, attempts (step this apiKey p e) = (attempts p ++ more)%list.
Proof.
  destruct e; simpl.
  - rewrite callback_settles. simpl. eauto.
  - destruct (listening p); simpl; [eauto |]. exists []. by rewrite app_nil_r.
  - destruct (listening p); simpl; [eauto |]. exists []. by rewrite app_nil_r.
  - unfold timer_callback. destruct (timer p); simpl; eauto; exists []; by rewrite app_nil_r.
Qed.

Lemma attempts_steps this apiKey evs p :
  exists more, attempts (foldl (step this apiKey) p evs) = (attempts p ++ more)%list.
Proof.
  revert p. induction evs as [|e evs IH]; intros p; simpl.
  - exists []. by rewrite app_nil_r.
  - destruct (IH (step this apiKey p e)) as [more1 H1].
    destruct (attempts_step this apiKey e p) as [more0 H0].
    exists (more0 ++ more1)%list. by rewrite H1, H0, app_assoc.
Qed.

(** X4: when the first thing a delegate does is to answer, through the
    callback (before or after it returns) or through the promise it
    returned, the lookup is settled by that answer, the timer is cleared, and
    the timer callback never runs, whatever happens afterwards. *)
Theorem answer_clears_timer this apply apiKey f r :
  secretForKey this = VFun f ->
  responds (apply f apiKey) r ->
  settled (_getSecretForKey this apply apiKey) = Some r
  /\ timer (_getSecretForKey this apply apiKey) = Cleared
  /\ fires (_getSecretForKey this apply apiKey) = 0%nat.
Proof.
  intros Ef Hb.
  assert (Hst : settled (_getSecretForKey this apply apiKey) = Some r
                /\ timer (_getSecretForKey this apply apiKey) = Cleared).
  { unfold _getSecretForKey. rewrite Ef.
    inversion Hb as [v rest Eb Er | e rest Eb Er | e s more c rest Eb Er
                    | e s p rest Eb Er]; simpl.
    - split; [by apply steps_stable | by apply cleared_steps].
    - split; [by apply steps_stable | by apply cleared_steps].
    - split.
      + apply steps_stable, call_delegate_stable. simpl. apply callbacks_stable.
        by rewrite callback_settles.
      + apply cleared_steps. rewrite timer_of_call_delegate. simpl.
        apply cleared_callbacks. by rewrite callback_settles.
    - split.
      + apply steps_stable. rewrite callback_settles. by destruct p.
      + apply cleared_steps. rewrite callback_settles. by destruct p. }
  destruct Hst as [Hs Ht]. split; [exact Hs |]. split; [exact Ht |].
  pose proof (lookup_ok_getSecretForKey this apply apiKey) as (_ & Hf & _).
  by rewrite Hf, Ht.
Qed.

(** X5: a delegate that throws before it has called back makes the lookup
    reject with what it threw, but the timer stays set: when the timeout
    passes, the timer callback still runs, once, and its rejection comes
    second and is ignored. *)
Theorem throw_leaves_timer_running this apply apiKey f exn rest :
  secretForKey this = VFun f ->
  apply f apiKey
  = {| during := []; completed := Throws exn; afterwards := TimeoutElapsed :: rest |} ->
  settled (_getSecretForKey this apply apiKey) = Some (Reject exn)
  /\ fires (_getSecretForKey this apply apiKey) = 1%nat
  /\ exists more,
       attempts (_getSecretForKey this apply apiKey)
       = Reject exn :: Reject (timeout_error this apiKey) :: more.
Proof.
  intros Ef Eb.
  pose proof (lookup_ok_getSecretForKey this apply apiKey) as (_ & Hf & _).
  unfold _getSecretForKey in *. rewrite Ef, Eb in *. simpl in *.
  set (p1 := timer_callback this apiKey _) in *.
  assert (Ht : timer p1 = Fired) by reflexivity.
  split; [by apply steps_stable |].
  split; [by rewrite Hf, (fired_steps this apiKey rest p1 Ht) |].
  destruct (attempts_steps this apiKey rest p1) as [more Hmore].
  exists more. rewrite Hmore. reflexivity.
Qed.

(** A waiting lookup that sees no callback ends with the timeout. *)
Lemma waiting_times_out this apiKey evs p :
  waiting p ->
  forallb (fun ev => negb (is_callback ev)) evs = true ->
  TimeoutElapsed ∈ evs ->
  settled (foldl (step this apiKey) p evs) = Some (Reject (timeout_error this apiKey)).
Proof.
  revert p. induction evs as [|e evs IH]; intros p (Hs & Ht & Hl) Hcb Hin.
  - by apply elem_of_nil in Hin.
  - simpl in Hcb. apply andb_true_iff in Hcb as [He Hcb]. simpl.
    destruct e; simpl in *; try discriminate.
    + rewrite Hl. apply elem_of_cons in Hin as [Hin | Hin]; [discriminate |].
      by apply IH.
    + rewrite Hl. apply elem_of_cons in Hin as [Hin | Hin]; [discriminate |].
      by apply IH.
    + apply steps_stable. unfold timer_callback. rewrite Ht. simpl. by rewrite Hs.
Qed.

Lemma unanswered_lookup_times_out this apply apiKey f :
  secretForKey this = VFun f ->
  during (apply f apiKey) = [] ->
  completed (apply f apiKey) = Returns false ->
  forallb (fun ev => negb (is_callback ev)) (afterwards (apply f apiKey)) = true ->
  TimeoutElapsed ∈ afterwards (apply f apiKey) ->
  settled (_getSecretForKey this apply apiKey) = Some (Reject (timeout_error this apiKey)).
Proof.
  intros Ef Hd Hc Hcb Hin. unfold _getSecretForKey. rewrite Ef.
  apply waiting_times_out; [| done | done].
  unfold call_delegate. rewrite Hd, Hc. simpl. repeat split.
Qed.

End TimerFacts.

(** ** Delegates that never answer, and none at all *)

Section Unanswered.
Context `{Platform}.

(** X14: when the delegate returns something that is no [Promise] and the
    callback is never called, the lookup ends with the timeout, however the
    returned value behaves: [authenticate] rejects with
    [INTERNAL_ERROR_SECRET_TIMEOUT] once the timeout has passed. *)
Theorem unanswered_call_times_out (this : Server) (apply : nat -> value -> Behaviour)
    (now : Z) (req : Request) (data : value) (f : nat) :
  secretForKey this = VFun f ->
  is_undefined (apiKey_of req) = false ->
  during (apply f (apiKey_of req)) = [] ->
  completed (apply f (apiKey_of req)) = Returns false ->
  forallb (fun ev => negb (is_callback ev)) (afterwards (apply f (apiKey_of req))) = true ->
  TimeoutElapsed ∈ afterwards (apply f (apiKey_of req)) ->
  snd (authenticate this apply now req data)
  = Some (Reject (timeout_error this (apiKey_of req)))
  /\ code_of (timeout_error this (apiKey_of req)) = Some "INTERNAL_ERROR_SECRET_TIMEOUT".
Proof.
  intros Ef Hk Hd Hc Hcb Hin. split; [| reflexivity].
  rewrite (authenticate_lookup_rejected this apply now req data
             (timeout_error this (apiKey_of req)) Hk); [reflexivity |].
  by apply (unanswered_lookup_times_out this apply (apiKey_of req) f).
Qed.

(** X15: a [secretForKey] setting that is not a function is dropped by the
    constructor without a word: the instance has no delegate, and
    [authenticate] rejects every request that has an API key with the
    complaint that the function is missing, having called nothing. *)
Theorem nonfunction_delegate_ignored (s : option (gmap string value))
    (apply : nat -> value -> Behaviour) (now : Z) (req : Request) (data : value) :
  (forall f, supplied s "secretForKey" <> Some (VFun f)) ->
  is_undefined (apiKey_of req) = false ->
  secretForKey (constructor s) = VUndefined
  /\ snd (authenticate (constructor s) apply now req data)
     = Some (Reject missing_delegate_error)
  /\ invoked (fst (authenticate (constructor s) apply now req data)) = [].
Proof.
  intros Hno Hk.
  assert (Hu : secretForKey (constructor s) = VUndefined).
  { rewrite constructor_delegate.
    destruct (supplied s "secretForKey") as [[]|] eqn:E; try reflexivity.
    by destruct (Hno f). }
  split; [exact Hu |]. split.
  - rewrite (authenticate_lookup_rejected (constructor s) apply now req data
               missing_delegate_error Hk); [reflexivity |].
    apply missing_delegate_settled. intros f. rewrite Hu. discriminate.
  - destruct (authenticate_with_key (constructor s) apply now req data Hk) as [_ Hi].
    by rewrite Hi, Hu.
Qed.

End Unanswered.

(** ** The server of the usage example *)

Section UsageFacts.
Context `{Platform}.

(** A delegate that calls back once before it returns settles the lookup
    with that call. *)
Lemma synchronous_callback_settled (this : Server) (apply : nat -> value -> Behaviour)
    (apiKey : value) (f : nat) (e s : value) (rest : list event) :
  secretForKey this = VFun f ->
  apply f apiKey
  = {| during := [(e, s)]; completed := Returns false; afterwards := rest |} ->
  settled (_getSecretForKey this apply apiKey) = Some (callback_settlement e s).
Proof.
  intros Ef Eb. unfold _getSecretForKey. rewrite Ef, Eb.
  apply steps_stable, call_delegate_stable. cbn [foldl].
  by rewrite callback_settles.
Qed.

(** What the delegate of the usage example makes of a key. *)
Lemma usage_lookup (apiKey : value) :
  settled (_getSecretForKey (example_server 0) example_apply apiKey)
  = Some (match apiKey with
          | VStr k => match secretsForAPIKeys !! k with
                      | Some secret => Resolve (VStr secret)
                      | None => Reject VUndefined
                      end
          | _ => Reject VUndefined
          end).
Proof.
  destruct apiKey as [| | | |k| |];
    try (by apply (synchronous_callback_settled (example_server 0) example_apply _ 0%nat VUndefined VUndefined
                     [TimeoutElapsed] eq_refl)).
  destruct (secretsForAPIKeys !! k) as [secret|] eqn:Et.
  - apply (synchronous_callback_settled (example_server 0) example_apply _ 0%nat VNull (VStr secret)
             [TimeoutElapsed] eq_refl).
    cbn [example_apply]. unfold usage_secretForKey. by rewrite Et.
  - apply (synchronous_callback_settled (example_server 0) example_apply _ 0%nat VUndefined VUndefined
             [TimeoutElapsed] eq_refl).
    cbn [example_apply]. unfold usage_secretForKey. by rewrite Et.
Qed.

Lemma respond_is_Some o : is_Some o -> is_Some (respond o).
Proof. intros [[v | e] ->]; simpl; eauto. Qed.



(** X17: for a request without a [rawBody], the two handlers of the usage
    example send the same response: collecting the chunks by hand and
    passing them on is what passing [true] does. *)
Theorem usage_handlers_agree (now : Z) (request : Request) :
  prop (props request) "rawBody" = VUndefined \/ prop (props request) "rawBody" = VNull ->
  immediateRequestHandler now request = dataListenerRequestHandler now request.
Proof.
  intros Hraw. unfold dataListenerRequestHandler, immediateRequestHandler.
  rewrite authenticate_sentinel.
  assert (Er : _getRawBody request = VStr (String.concat "" (chunks request))).
  { unfold _getRawBody. by destruct Hraw as [-> | ->]. }
  by rewrite Er.
Qed.

(** X18: the server of the usage example sends 200 only to a request whose
    API key is one of its three keys and whose authorization header carries
    the signature of the request under the secret of that key. *)
Theorem usage_server_accepts_known_keys_only (now : Z) (request : Request) (r : Response) :
  dataListenerRequestHandler now request = Some r ->
  statusCode r = 200 ->
  exists k secret a,
    _getApiKey request = Some (VStr k)
    /\ secretsForAPIKeys !! k = Some secret
    /\ headers request !! "authorization" = Some a
    /\ nth 1 (split_space a) "" ∈ algorithms
    /\ calculated request (VStr (String.concat "" (chunks request))) (VStr secret)
         (nth 1 (split_space a) "")
       = Some (nth 2 (split_space a) "").
Proof.
  unfold dataListenerRequestHandler. intros Hr Hs.
  destruct (snd (authenticate _ _ now request _)) as [[v | e]|] eqn:Hout;
    simpl in Hr; inversion Hr; subst r; try discriminate Hs.
  destruct (authenticate_resolved _ _ _ _ _ _ Hout)
    as (secret & a & d & [[Hk Hsec Hd Ha Hdate] _] & _ & _ & Halg & Hsig & _).
  rewrite usage_lookup in Hsec. unfold apiKey_of in Hsec, Hk.
  destruct (_getApiKey request) as [[| | | |k| |]|] eqn:Ek; try discriminate.
  simpl in Hsec.
  destruct (secretsForAPIKeys !! k) as [known|] eqn:Et; [| discriminate].
  inversion Hsec; subst secret.
  exists k, known, a. auto.
Qed.

End UsageFacts.

(** ** The further properties at work *)

(** X4, at the delegate of the usage example and a known key: the lookup
    resolves with the secret and the timer is cleared. *)
Lemma usage_delegate_clears_timer :
  settled (_getSecretForKey (H := example_platform) (example_server 0) example_apply
             (VStr "API_KEY")) = Some (Resolve (VStr "SECRET"))
  /\ timer (_getSecretForKey (H := example_platform) (example_server 0) example_apply
              (VStr "API_KEY")) = Cleared
  /\ fires (_getSecretForKey (H := example_platform) (example_server 0) example_apply
              (VStr "API_KEY")) = 0%nat.
Proof.
  apply (answer_clears_timer (H := example_platform) (example_server 0) example_apply
           (VStr "API_KEY") 0 (callback_settlement VNull (VStr "SECRET")) eq_refl).
  apply (responds_during VNull (VStr "SECRET") [] (Returns false) [TimeoutElapsed]).
Defined.

(** X5, at the delegate that throws: the lookup rejects with what was
    thrown, and the timer callback has run. *)
Lemma throwing_delegate_timer_runs :
  settled (_getSecretForKey (H := example_platform) (example_server 0) further_apply
             (VStr "API_KEY")) = Some (Reject (VStr "boom"))
  /\ fires (_getSecretForKey (H := example_platform) (example_server 0) further_apply
              (VStr "API_KEY")) = 1%nat
  /\ exists more,
       attempts (_getSecretForKey (H := example_platform) (example_server 0) further_apply
                   (VStr "API_KEY"))
       = Reject (VStr "boom")
         :: Reject (timeout_error (H := example_platform) (example_server 0) (VStr "API_KEY"))
         :: more.
Proof.
  apply (throw_leaves_timer_running (H := example_platform) (example_server 0) further_apply
           (VStr "API_KEY") 0 (VStr "boom") [] eq_refl eq_refl).
Defined.

(** X6, at a request without a date: it is rejected for the missing date. *)
Lemma undated_request_rejected :
  rejects_with
    (snd (authenticate (H := example_platform) (example_server 0) example_apply example_now
            undated_request (VStr "")))
    "DATE_HEADER_MISSING".
Proof.
  destruct (mandatory_headers (H := example_platform) (example_server 0) example_apply
              example_now undated_request (VStr "") (VStr "SECRET"))
    as [_ [_ Hdate]]; [vm_compute; reflexivity .. |].
  apply Hdate. split; [vm_compute; eauto | vm_compute; reflexivity].
Defined.

(** X8, at the signed request of the examples: the request carries what the
    promise resolves with. *)
Lemma signed_request_annotated :
  exists apiKey secret signature,
    VObj [("apiKey", VStr "API_KEY"); ("secret", VStr "SECRET");
          ("signature", VStr example_signature)]
    = VObj [("apiKey", apiKey); ("secret", secret); ("signature", VStr signature)]
    /\ props (request (fst (authenticate (H := example_platform) (example_server 0)
                              example_apply example_now
                              (signed_request "Thu, 01 Jan 1970 00:10:00 GMT") (VStr ""))))
       !! "apiKey" = Some apiKey
    /\ props (request (fst (authenticate (H := example_platform) (example_server 0)
                              example_apply example_now
                              (signed_request "Thu, 01 Jan 1970 00:10:00 GMT") (VStr ""))))
       !! "secret" = Some secret
    /\ props (request (fst (authenticate (H := example_platform) (example_server 0)
                              example_apply example_now
                              (signed_request "Thu, 01 Jan 1970 00:10:00 GMT") (VStr ""))))
       !! "signature" = Some (VStr signature)
    /\ props (request (fst (authenticate (H := example_platform) (example_server 0)
                              example_apply example_now
                              (signed_request "Thu, 01 Jan 1970 00:10:00 GMT") (VStr ""))))
       !! "signatureExpected" = Some (VStr signature)
    /\ props (request (fst (authenticate (H := example_platform) (example_server 0)
                              example_apply example_now
                              (signed_request "Thu, 01 Jan 1970 00:10:00 GMT") (VStr ""))))
       !! "authenticated" = Some (VBool true)
    /\ invoked (fst (authenticate (H := example_platform) (example_server 0)
                       example_apply example_now
                       (signed_request "Thu, 01 Jan 1970 00:10:00 GMT") (VStr "")))
       = [apiKey].
Proof.
  apply (resolved_request_annotated (H := example_platform) (example_server 0) example_apply
           example_now (signed_request "Thu, 01 Jan 1970 00:10:00 GMT") (VStr "")).
  vm_compute. reflexivity.
Defined.

(** X9, at the request signed ten minutes before [example_now]: stale then,
    it is stale a day later. *)
Lemma stale_request_a_day_later :
  rejects_with
    (snd (authenticate (H := example_platform) (example_server 0) example_apply 86400000
            (signed_request "Thu, 01 Jan 1970 00:00:00 GMT") (VStr "other")))
    "DATE_HEADER_INVALID".
Proof.
  apply (stale_stays_stale (H := example_platform) (example_server 0) example_apply
           example_now 86400000 (signed_request "Thu, 01 Jan 1970 00:00:00 GMT")
           (VStr "") (VStr "other") (VStr "SECRET")
           ("signature sha256 " +:+ example_signature) "Thu, 01 Jan 1970 00:00:00 GMT").
  - constructor; vm_compute; reflexivity.
  - unfold example_now. lia.
  - eexists. split; vm_compute; reflexivity.
Defined.

(** X10, at a request that arrives marked as authenticated and with a forged
    secret: it ends as the same request without them does, rejected for its
    signature. *)
Lemma forged_annotations_ignored :
  snd (authenticate (H := example_platform) (example_server 0) example_apply example_now
         annotated_request (VStr ""))
  = snd (authenticate (H := example_platform) (example_server 0) example_apply example_now
           (example_request "API_KEY" "Thu, 01 Jan 1970 00:10:00 GMT" "signature sha256 bad")
           (VStr "")).
Proof.
  apply (outcome_ignores_annotations (H := example_platform) (example_server 0) example_apply
           example_now annotated_request
           (example_request "API_KEY" "Thu, 01 Jan 1970 00:10:00 GMT" "signature sha256 bad")
           (VStr "")); reflexivity.
Defined.

(** X13, at the signed request of the examples. *)
Lemma example_header_accepted :
  split_space (authorization_header "sha256" example_signature)
  = ["signature"; "sha256"; example_signature]
  /\ snd (authenticate (H := example_platform) (example_server 0) example_apply example_now
            (signed_request "Thu, 01 Jan 1970 00:10:00 GMT") (VStr ""))
     = Some (Resolve (VObj [("apiKey", VStr "API_KEY"); ("secret", VStr "SECRET");
                            ("signature", VStr example_signature)])).
Proof.
  apply (signed_header_accepted (H := example_platform) (example_server 0) example_apply
           example_now (signed_request "Thu, 01 Jan 1970 00:10:00 GMT") (VStr "")
           (VStr "SECRET") "Thu, 01 Jan 1970 00:10:00 GMT" "sha256" example_signature).
  - reflexivity.
  - split; [constructor |]; vm_compute; reflexivity.
  - apply (bool_decide_unpack _). vm_compute. exact I.
  - reflexivity.
  - reflexivity.
Defined.

(** X14, at the delegate that returns a thenable: the request is rejected
    with the timeout although the thenable was fulfilled in time. *)
Lemma thenable_delegate_times_out :
  snd (authenticate (H := example_platform) (example_server 1) further_apply example_now
         (signed_request "Thu, 01 Jan 1970 00:10:00 GMT") (VStr ""))
  = Some (Reject (timeout_error (H := example_platform) (example_server 1) (VStr "API_KEY")))
  /\ code_of (timeout_error (H := example_platform) (example_server 1) (VStr "API_KEY"))
     = Some "INTERNAL_ERROR_SECRET_TIMEOUT".
Proof.
  apply (unanswered_call_times_out (H := example_platform) (example_server 1) further_apply
           example_now (signed_request "Thu, 01 Jan 1970 00:10:00 GMT") (VStr "") 1);
    try reflexivity.
  vm_compute. apply list_elem_of_further, list_elem_of_here.
Defined.

(** X15, at settings whose [secretForKey] is a string. *)
Lemma string_delegate_ignored :
  secretForKey (constructor (Some {[ "secretForKey" := VStr "SECRET" ]})) = VUndefined
  /\ snd (authenticate (H := example_platform)
            (constructor (Some {[ "secretForKey" := VStr "SECRET" ]})) example_apply
            example_now (signed_request "Thu, 01 Jan 1970 00:10:00 GMT") (VStr ""))
     = Some (Reject missing_delegate_error)
  /\ invoked (fst (authenticate (H := example_platform)
                     (constructor (Some {[ "secretForKey" := VStr "SECRET" ]})) example_apply
                     example_now (signed_request "Thu, 01 Jan 1970 00:10:00 GMT") (VStr "")))
     = [].
Proof.
  apply (nonfunction_delegate_ignored (H := example_platform)
           (Some {[ "secretForKey" := VStr "SECRET" ]}) example_apply example_now
           (signed_request "Thu, 01 Jan 1970 00:10:00 GMT") (VStr "")).
  - intros f. vm_compute. discriminate.
  - reflexivity.
Defined.


(** X17, at the request whose body is still in its stream. *)
Lemma streamed_request_handled_alike :
  immediateRequestHandler (H := example_platform) example_now streamed_request
  = dataListenerRequestHandler (H := example_platform) example_now streamed_request.
Proof.
  apply (usage_handlers_agree (H := example_platform) example_now streamed_request).
  left. reflexivity.
Defined.

(** X18, at the signed request of the examples, which is sent 200. *)
Lemma signed_request_key_known :
  exists k secret a,
    _getApiKey (H := example_platform) (signed_request "Thu, 01 Jan 1970 00:10:00 GMT")
    = Some (VStr k)
    /\ secretsForAPIKeys !! k = Some secret
    /\ headers (signed_request "Thu, 01 Jan 1970 00:10:00 GMT") !! "authorization" = Some a
    /\ nth 1 (split_space a) "" ∈ algorithms (Platform := example_platform)
    /\ calculated (H := example_platform) (signed_request "Thu, 01 Jan 1970 00:10:00 GMT")
         (VStr (String.concat ""
                  (chunks (signed_request "Thu, 01 Jan 1970 00:10:00 GMT"))))
         (VStr secret) (nth 1 (split_space a) "")
       = Some (nth 2 (split_space a) "").
Proof.
  apply (usage_server_accepts_known_keys_only (H := example_platform) example_now
           (signed_request "Thu, 01 Jan 1970 00:10:00 GMT")
           {| statusCode := 200; payload := Text "200" |}).
  - vm_compute. reflexivity.
  - reflexivity.
Defined.
